(** * Repo_Flattener: classification, directory tree, export and assembly

    A shallow embedding of [flatten_repo.py].  The file classifier
    ([looks_binary], [decide_file], [collect_files]), the fallback tree
    builder ([generate_tree_fallback]), the export generator
    ([generate_cxml_text]) and the computed parts of [build_html] are
    translated function by function; the theorems at the end relate them to
    the written specification.

    Conventions of the embedding.
    - A Python [str] is a Rocq [string].  A character of the ASCII range is
      one [ascii]; text beyond ASCII (the box-drawing connectors of the tree)
      is held UTF-8 encoded, which concatenation, copying and comparison
      respect.  The per-character functions [str.isalnum] and [str.lower]
      are those of Python on the ASCII range.
    - A Python [int] is a [Z]; [bytes] is a [list byte].
    - A function that may raise returns a [result]; [Raise e] propagates
      unless the source has a handler for it.
    - The repository root is fixed.  A [pathlib.Path] under it is
      represented by its root-relative, slash-separated string, and the
      operating system is a record of functions on such paths. *)

From Stdlib Require Import List String Ascii ZArith NArith Lia Bool.
From Stdlib Require Import DecimalString Permutation Sorted.
From Stdlib.Strings Require Import Byte.
Import ListNotations.
Local Open Scope string_scope.
Local Open Scope Z_scope.

(** ** Exceptions and results *)

(** The source distinguishes [FileNotFoundError] (caught around [stat]) from
    every other exception (caught only by [except Exception]).  Both carry
    the text that [str(e)] returns. *)
Inductive exn : Type :=
| FileNotFoundError (msg : string)
| OSError (msg : string).

Definition str_of_exn (e : exn) : string :=
  match e with
  | FileNotFoundError m => m
  | OSError m => m
  end.

Inductive result (A : Type) : Type :=
| Ok (a : A)
| Raise (e : exn).

Arguments Ok {A} a.
Arguments Raise {A} e.

Definition bind {A B : Type} (c : result A) (k : A -> result B) : result B :=
  match c with
  | Ok a => k a
  | Raise e => Raise e
  end.

Notation "x <- c ;; k" := (bind c (fun x => k))
  (at level 61, c at next level, right associativity).

(** ** Python string helpers *)

Definition ascii_code (c : ascii) : N := N_of_ascii c.

(** [str.lower], ASCII range. *)
Definition lower_char (c : ascii) : ascii :=
  let n := ascii_code c in
  if ((65 <=? n) && (n <=? 90))%N then ascii_of_N (n + 32) else c.

Fixpoint lower (s : string) : string :=
  match s with
  | EmptyString => EmptyString
  | String c t => String (lower_char c) (lower t)
  end.

(** [str.isalnum] of one character, ASCII range. *)
Definition isalnum (c : ascii) : bool :=
  let n := ascii_code c in
  (((48 <=? n) && (n <=? 57)) || ((65 <=? n) && (n <=? 90))
   || ((97 <=? n) && (n <=? 122)))%N.

(** [needle in hay] for strings. *)
Fixpoint str_in (needle hay : string) : bool :=
  if prefix needle hay then true
  else match hay with
       | EmptyString => false
       | String _ t => str_in needle t
       end.

(** [s.split(sep)] for a one-character separator. *)
Fixpoint split (sep : ascii) (s : string) : list string :=
  match s with
  | EmptyString => [EmptyString]
  | String c t =>
      if Ascii.eqb c sep then EmptyString :: split sep t
      else match split sep t with
           | h :: r => String c h :: r
           | [] => [String c EmptyString]
           end
  end.

(** [s[i:]] for [i = s.rfind(c)]; [None] when [c] does not occur. *)
Fixpoint rfind_tail (c : ascii) (s : string) : option string :=
  match s with
  | EmptyString => None
  | String a t =>
      match rfind_tail c t with
      | Some r => Some r
      | None => if Ascii.eqb a c then Some s else None
      end
  end.

(** [str(n)] for an integer. *)
Definition str_of_Z (n : Z) : string := NilZero.string_of_int (Z.to_int n).

Definition str_of_nat (n : nat) : string := str_of_Z (Z.of_nat n).

(** The double quote, which no literal of this file spells out. *)
Definition dquote : string := String (ascii_of_nat 34) EmptyString.

(** [html.escape(s)] with its default [quote=True]. *)
Definition escape_char (c : ascii) : string :=
  let n := ascii_code c in
  if (n =? 38)%N then "&amp;"
  else if (n =? 60)%N then "&lt;"
  else if (n =? 62)%N then "&gt;"
  else if (n =? 34)%N then "&quot;"
  else if (n =? 39)%N then "&#x27;"
  else String c EmptyString.

Fixpoint html_escape (s : string) : string :=
  match s with
  | EmptyString => EmptyString
  | String c t => escape_char c ++ html_escape t
  end.

(** ** pathlib *)

(** [PurePath.name]: the last component. *)
Definition path_name (p : string) : string :=
  match rfind_tail "/" p with
  | Some (String _ t) => t
  | _ => p
  end.

(** [PurePath.suffix]: the part of the name from its last dot on, when that
    dot is neither the first nor the last character of the name. *)
Definition suffix (p : string) : string :=
  let name := path_name p in
  match rfind_tail "." name with
  | Some tl =>
      let i := (String.length name - String.length tl)%nat in
      if ((0 <? i) && (i <? String.length name - 1))%nat then tl
      else EmptyString
  | None => EmptyString
  end.

(** Paths compare by their lists of components. *)
Fixpoint parts_leb (p q : list string) : bool :=
  match p, q with
  | [], _ => true
  | _ :: _, [] => false
  | a :: p', b :: q' =>
      match String.compare a b with
      | Lt => true
      | Gt => false
      | Eq => parts_leb p' q'
      end
  end.

Definition path_leb (p q : string) : bool :=
  parts_leb (split "/" p) (split "/" q).

(** ** Sorting

    [sorted] and [list.sort] are stable; so is insertion from the right. *)
Section Sort.
Context {A : Type} (leb : A -> A -> bool).

Fixpoint insert (x : A) (l : list A) : list A :=
  match l with
  | [] => [x]
  | y :: l' => if leb x y then x :: l else y :: insert x l'
  end.

Definition sort (l : list A) : list A := fold_right insert [] l.

End Sort.

(** ** The operating system, as the classifier sees it *)

Record filesystem : Type := {
  is_symlink : string -> bool;
  is_file : string -> bool;
  (** [path.stat().st_size] *)
  stat_size : string -> result Z;
  (** [path.open("rb")] followed by [read()] of the whole file *)
  read_bytes : string -> result (list byte);
  (** [path.read_text(encoding="utf-8", errors="replace")] *)
  read_text : string -> result string
}.

(** ** UTF-8 decoding of a byte string ([bytes.decode("utf-8")], strict)

    Well-formed sequences are those of the Unicode standard: no overlong
    forms, no surrogates, nothing above U+10FFFF, no truncated tail. *)
Module Utf8.

Definition between (lo hi b : N) : bool := ((lo <=? b) && (b <=? hi))%N.

Definition cont (b : N) : bool := between 128 191 b.

Fixpoint well_formed (bs : list N) : bool :=
  match bs with
  | [] => true
  | b0 :: t0 =>
      if (b0 <=? 127)%N then well_formed t0
      else match t0 with
      | [] => false
      | b1 :: t1 =>
          if between 194 223 b0 then cont b1 && well_formed t1
          else match t1 with
          | [] => false
          | b2 :: t2 =>
              let second3 :=
                if (b0 =? 224)%N then between 160 191 b1
                else if (b0 =? 237)%N then between 128 159 b1
                else cont b1 in
              if between 224 239 b0 then second3 && cont b2 && well_formed t2
              else match t2 with
              | [] => false
              | b3 :: t3 =>
                  let second4 :=
                    if (b0 =? 240)%N then between 144 191 b1
                    else if (b0 =? 244)%N then between 128 143 b1
                    else cont b1 in
                  between 240 244 b0 && second4 && cont b2 && cont b3
                  && well_formed t3
              end
          end
      end
  end.

Definition decodes (chunk : list byte) : bool :=
  well_formed (map Byte.to_N chunk).

End Utf8.

(** ** The classifier *)

Definition MAX_DEFAULT_BYTES : Z := 50 * 1024.

Definition BINARY_EXTENSIONS : list string :=
  [".png"; ".jpg"; ".jpeg"; ".gif"; ".webp"; ".bmp"; ".svg"; ".ico";
   ".pdf"; ".zip"; ".tar"; ".gz"; ".bz2"; ".xz"; ".7z"; ".rar";
   ".mp3"; ".mp4"; ".mov"; ".avi"; ".mkv"; ".wav"; ".ogg"; ".flac";
   ".ttf"; ".otf"; ".eot"; ".woff"; ".woff2";
   ".so"; ".dll"; ".dylib"; ".class"; ".jar"; ".exe"; ".bin"].

Definition MARKDOWN_EXTENSIONS : list string :=
  [".md"; ".markdown"; ".mdown"; ".mkd"; ".mkdn"].

(** [x in s] for a set of strings. *)
Definition str_mem (x : string) (s : list string) : bool :=
  existsb (String.eqb x) s.

Record RenderDecision : Type := {
  include : bool;
  reason : string
}.

Record FileInfo : Type := {
  path : string;
  rel : string;
  size : Z;
  decision : RenderDecision
}.

(** The argument of [f.read(8192)]. *)
Definition CHUNK : nat := Z.to_nat 8192.

Definition has_nul (chunk : list byte) : bool :=
  existsb (Byte.eqb x00) chunk.

Definition looks_binary (fs : filesystem) (p : string) : bool :=
  let ext := lower (suffix p) in
  if str_mem ext BINARY_EXTENSIONS then true
  else match read_bytes fs p with
       | Ok data =>
           let chunk := firstn CHUNK data in
           if has_nul chunk then true
           else if Utf8.decodes chunk then false
           else true
       | Raise _ => true
       end.

(** The test of line 105 on the relative path. *)
Definition in_git (rel : string) : bool :=
  str_in "/.git/" ("/" ++ rel ++ "/") || prefix ".git/" rel.

(** [path.stat().st_size] under [except FileNotFoundError: size = 0]. *)
Definition stat_or_zero (fs : filesystem) (p : string) : result Z :=
  match stat_size fs p with
  | Ok n => Ok n
  | Raise (FileNotFoundError _) => Ok 0
  | Raise e => Raise e
  end.

Definition decide_file (fs : filesystem) (p : string) (max_bytes : Z)
  : result FileInfo :=
  let rel := p in
  size <- stat_or_zero fs p ;;
  if in_git rel then
    Ok {| path := p; rel := rel; size := size;
          decision := {| include := false; reason := "ignored" |} |}
  else if size >? max_bytes then
    Ok {| path := p; rel := rel; size := size;
          decision := {| include := false; reason := "too_large" |} |}
  else if looks_binary fs p then
    Ok {| path := p; rel := rel; size := size;
          decision := {| include := false; reason := "binary" |} |}
  else
    Ok {| path := p; rel := rel; size := size;
          decision := {| include := true; reason := "ok" |} |}.

(** The body of the [for] loop of [collect_files], over the sorted paths;
    the list returned is [infos] in the order of the appends. *)
Fixpoint collect_loop (fs : filesystem) (ps : list string) (max_bytes : Z)
  : result (list FileInfo) :=
  match ps with
  | [] => Ok []
  | p :: rest =>
      if is_symlink fs p then collect_loop fs rest max_bytes
      else if is_file fs p then
        info <- decide_file fs p max_bytes ;;
        infos <- collect_loop fs rest max_bytes ;;
        Ok (info :: infos)
      else collect_loop fs rest max_bytes
  end.

(** [listing] is what [repo_root.rglob("*")] yields, in any order. *)
Definition collect_files (fs : filesystem) (listing : list string)
  (max_bytes : Z) : result (list FileInfo) :=
  collect_loop fs (sort path_leb listing) max_bytes.

(** ** Human-readable sizes

    [bytes_human] divides a float by 1024.0 until it drops below 1024 or
    the units run out.  For [|n| < 2^53] the conversion [float(n)] and the
    divisions by a power of two are exact, so [f] is the fraction [n / d]
    with [d] a power of 1024, and [f"{f:.1f}"] rounds that fraction to one
    decimal, ties to even. *)

Definition units : list string := ["B"; "KiB"; "MiB"; "GiB"; "TiB"].

(** The [while] loop; [fuel] bounds the iterations, and [length units]
    is enough (see [human_loop_exit]). *)
Fixpoint human_loop (fuel : nat) (n d : Z) (i : nat) : Z * nat :=
  match fuel with
  | O => (d, i)
  | S fuel' =>
      if (n >=? 1024 * d) && (i <? List.length units - 1)%nat
      then human_loop fuel' n (1024 * d) (S i)
      else (d, i)
  end.

(** [n / d] in tenths, rounded half to even. *)
Definition tenths (n d : Z) : Z :=
  let q := (10 * n) / d in
  let r := (10 * n) mod d in
  if (2 * r >? d) || ((2 * r =? d) && Z.odd q) then q + 1 else q.

Definition bytes_human (n : Z) : string :=
  let (d, i) := human_loop (List.length units) n 1 O in
  if Nat.eqb i 0 then str_of_Z n ++ " " ++ nth i units ""
  else
    let t := tenths n d in
    str_of_Z (t / 10) ++ "." ++ str_of_Z (t mod 10) ++ " " ++ nth i units "".

(** ** The fallback directory tree *)

(** What [iterdir] and [is_dir] show of the tree on disk.  [Unlistable] is
    a directory whose [iterdir] raises (missing, or permission denied);
    [File] is anything that is not a directory. *)
#[warnings="-register-all"]
Inductive node : Type :=
| File (name : string)
| Dir (name : string) (children : list node)
| Unlistable (name : string) (e : exn).

Definition node_name (e : node) : string :=
  match e with
  | File n => n
  | Dir n _ => n
  | Unlistable n _ => n
  end.

Definition is_dir (e : node) : bool :=
  match e with
  | File _ => false
  | Dir _ _ => true
  | Unlistable _ _ => true
  end.

(** The sort key [(not e.is_dir(), e.name.lower())] and the order of such
    tuples: [False < True], then the strings. *)
Definition sort_key (e : node) : bool * string :=
  (negb (is_dir e), lower (node_name e)).

Definition key_leb (a b : bool * string) : bool :=
  match fst a, fst b with
  | false, true => true
  | true, false => false
  | _, _ => String.leb (snd a) (snd b)
  end.

Definition entry_leb (a b : node) : bool := key_leb (sort_key a) (sort_key b).

Definition not_dot_git (e : node) : bool := negb (String.eqb (node_name e) ".git").

(** What [walk] calls for one entry: its directory listing, printed. *)
Definition walker : Type := string -> result (list string).

(** The [for i, e in enumerate(entries)] loop of [walk].  [n] is
    [len(entries)]; each entry comes with the recursive call for it.  The
    value is the list of lines appended to [lines]. *)
Fixpoint walk_loop (n i : nat) (entries : list (node * walker))
  (prefix : string) : result (list string) :=
  match entries with
  | [] => Ok []
  | (e, walk_e) :: rest =>
      let last := Nat.eqb i (n - 1) in
      let branch := if last then "└── " else "├── " in
      let line := prefix ++ branch ++ node_name e in
      sub <- (if is_dir e
              then let extension := if last then "    " else "│   " in
                   walk_e (prefix ++ extension)
              else Ok []) ;;
      more <- walk_loop n (S i) rest prefix ;;
      Ok (line :: sub ++ more)
  end.

(** [walk].  The recursive call of each child is paired with the child
    before filtering and sorting, which only select and reorder the pairs;
    this keeps the recursion structural.  [iterdir] on something that is
    not a directory raises. *)
Fixpoint walk (dir_path : node) : walker :=
  match dir_path with
  | File _ => fun _ => Raise (OSError "Not a directory")
  | Unlistable _ e => fun _ => Raise e
  | Dir _ children => fun prefix =>
      let entries :=
        filter (fun ew => not_dot_git (fst ew))
               (map (fun c => (c, walk c)) children) in
      let entries := sort (fun a b => entry_leb (fst a) (fst b)) entries in
      walk_loop (List.length entries) 0 entries prefix
  end.

Definition nl : string := String (ascii_of_nat 10) EmptyString.

Definition generate_tree_fallback (root : node) : result string :=
  lines <- walk root "" ;;
  Ok (String.concat nl (node_name root :: lines)).

(** [tree_cmd] is the outcome of running the external [tree] utility. *)
Definition try_tree_command (tree_cmd : result string) (root : node)
  : result string :=
  match tree_cmd with
  | Ok out => Ok out
  | Raise _ => generate_tree_fallback root
  end.

(** ** Slugs and icons *)

Definition slug_char (ch : ascii) : ascii :=
  if isalnum ch || Ascii.eqb ch "-" || Ascii.eqb ch "_" then ch else "-"%char.

Fixpoint slugify (path_str : string) : string :=
  match path_str with
  | EmptyString => EmptyString
  | String ch t => String (slug_char ch) (slugify t)
  end.

Definition icons : list (string * string) :=
  [(".py", "🐍");
   (".js", "🟨");
   (".ts", "🔵");
   (".jsx", "⚛️");
   (".tsx", "⚛️");
   (".html", "🌐");
   (".css", "🎨");
   (".scss", "🎨");
   (".sass", "🎨");
   (".json", "📋");
   (".xml", "📋");
   (".yaml", "📋");
   (".yml", "📋");
   (".md", "📝");
   (".txt", "📄");
   (".pdf", "📕");
   (".doc", "📘");
   (".docx", "📘");
   (".xls", "📊");
   (".xlsx", "📊");
   (".csv", "📊");
   (".sql", "🗄️");
   (".sh", "⚡");
   (".bat", "⚡");
   (".ps1", "⚡");
   (".php", "🐘");
   (".rb", "💎");
   (".go", "🐹");
   (".rs", "🦀");
   (".cpp", "⚙️");
   (".c", "⚙️");
   (".h", "⚙️");
   (".java", "☕");
   (".kt", "🟣");
   (".swift", "🐦");
   (".dart", "🎯");
   (".vue", "💚");
   (".svelte", "🧡");
   (".dockerfile", "🐳");
   (".gitignore", "📋");
   (".env", "🔐");
   (".lock", "🔒");
   (".log", "📜")].

Fixpoint dict_get (k : string) (d : list (string * string)) (default : string)
  : string :=
  match d with
  | [] => default
  | (k', v) :: d' => if String.eqb k k' then v else dict_get k d' default
  end.

Definition get_file_icon (ext : string) : string :=
  dict_get (lower ext) icons "📄".

(** ** Selecting records by decision *)

Definition included (i : FileInfo) : bool := include (decision i).

Definition has_reason (r : string) (i : FileInfo) : bool :=
  String.eqb (reason (decision i)) r.

(** ** The structured export *)

(** The lines one pass of the loop of [generate_cxml_text] appends. *)
Definition cxml_entry (fs : filesystem) (index : nat) (i : FileInfo)
  : list string :=
  ["<document index=" ++ dquote ++ str_of_nat index ++ dquote ++ ">";
   "<source>" ++ rel i ++ "</source>";
   "<document_content>";
   match read_text fs (path i) with
   | Ok text => text
   | Raise e => "Failed to read: " ++ str_of_exn e
   end;
   "</document_content>";
   "</document>"].

(** [for index, i in enumerate(rendered, index)], threading [lines]. *)
Fixpoint cxml_loop (fs : filesystem) (index : nat) (rendered : list FileInfo)
  (lines : list string) : list string :=
  match rendered with
  | [] => lines
  | i :: rest => cxml_loop fs (S index) rest (lines ++ cxml_entry fs index i)
  end.

(** The list [lines] when [generate_cxml_text] joins it. *)
Definition cxml_lines (fs : filesystem) (infos : list FileInfo) : list string :=
  let lines := ["<documents>"] in
  let rendered := filter included infos in
  let lines := cxml_loop fs 1 rendered lines in
  lines ++ ["</documents>"].

Definition generate_cxml_text (fs : filesystem) (infos : list FileInfo)
  : string :=
  String.concat nl (cxml_lines fs infos).

(** ** The assembler *)

Definition toc_item (i : FileInfo) : string :=
  let anchor := slugify (rel i) in
  let ext := lower (suffix (rel i)) in
  let icon := get_file_icon ext in
  "<li><a href=" ++ dquote ++ "#file-" ++ anchor ++ dquote
  ++ "><span class=" ++ dquote ++ "file-icon" ++ dquote ++ ">" ++ icon
  ++ "</span>" ++ html_escape (rel i) ++ "</a> "
  ++ "<span class=" ++ dquote ++ "file-size" ++ dquote ++ ">("
  ++ bytes_human (size i) ++ ")</span></li>".

(** The [id] attribute value of the section of a file. *)
Definition section_id (i : FileInfo) : string := "file-" ++ slugify (rel i).

(** One [<section>].  [body_html] is what the renderer (pygments or
    markdown, or the inline error marker) made of the file. *)
Definition section_html (i : FileInfo) (body_html : string) : string :=
  nl ++ "<section class=" ++ dquote ++ "file-section" ++ dquote ++ " id="
  ++ dquote ++ section_id i ++ dquote ++ ">" ++ nl
  ++ "  <div class=" ++ dquote ++ "file-body" ++ dquote ++ ">" ++ body_html
  ++ "</div>" ++ nl ++ "</section>" ++ nl.

Definition skip_item (i : FileInfo) : string :=
  "<li><code>" ++ html_escape (rel i) ++ "</code> "
  ++ "<span class='file-size'>(" ++ bytes_human (size i) ++ ")</span></li>".

Definition render_skip_list (title : string) (items : list FileInfo) : string :=
  match items with
  | [] => ""
  | _ =>
      let lis := map skip_item items in
      "<details class='skip-section'><summary>" ++ html_escape title ++ " ("
      ++ str_of_nat (List.length items) ++ ")</summary>"
      ++ "<ul class='skip-list'>" ++ nl ++ String.concat nl lis ++ nl
      ++ "</ul></details>"
  end.

(** [sum(i.size for i in rendered)]. *)
Definition sum_sizes (l : list FileInfo) : Z :=
  fold_left (fun acc i => acc + size i) l 0.

(** The values [build_html] computes and places into its page template:
    the table of contents, the four numbers of the stats block, the tree,
    the skip lists, the sections and the export for the second view. *)
Record Artifact : Type := {
  toc_html : string;
  total_files : nat;
  stat_rendered : nat;
  stat_skipped : nat;
  stat_total_size : string;
  tree_block : string;
  skipped_html : string;
  sections_html : string;
  llm_text : string
}.

Section Assembler.
(** The content renderer: the body it makes of one included file. *)
Variable body_html : FileInfo -> string.
Variable fs : filesystem.
Variable tree_cmd : result string.

Definition build_html (repo_dir : node) (infos : list FileInfo)
  : result Artifact :=
  let rendered := filter included infos in
  let skipped_binary := filter (has_reason "binary") infos in
  let skipped_large := filter (has_reason "too_large") infos in
  let skipped_ignored := filter (has_reason "ignored") infos in
  let total_files :=
    (List.length rendered + List.length skipped_binary
     + List.length skipped_large + List.length skipped_ignored)%nat in
  tree_text <- try_tree_command tree_cmd repo_dir ;;
  let cxml_text := generate_cxml_text fs infos in
  let toc_html := String.concat "" (map toc_item rendered) in
  let sections := map (fun i => section_html i (body_html i)) rendered in
  let skipped_html :=
    render_skip_list "Skipped binaries" skipped_binary
    ++ render_skip_list "Skipped large files" skipped_large in
  Ok {| toc_html := toc_html;
        total_files := total_files;
        stat_rendered := List.length rendered;
        stat_skipped := (List.length skipped_binary
                         + List.length skipped_large)%nat;
        stat_total_size := bytes_human (sum_sizes rendered);
        tree_block := html_escape tree_text;
        skipped_html := skipped_html;
        sections_html := String.concat "" sections;
        llm_text := html_escape cxml_text |}.

End Assembler.

(** ** Names derived from the repository URL *)

(** [s.rstrip(c)] for one character. *)
Fixpoint rstrip (c : ascii) (s : string) : string :=
  match s with
  | EmptyString => EmptyString
  | String a t =>
      match rstrip c t with
      | EmptyString => if Ascii.eqb a c then EmptyString
                       else String a EmptyString
      | t' => String a t'
      end
  end.

(** [s.endswith(suf)]. *)
Fixpoint endswith (suf s : string) : bool :=
  if String.eqb s suf then true
  else match s with
       | EmptyString => false
       | String _ t => endswith suf t
       end.

(** [s.replace(old, new)] for a non-empty [old]: occurrences are replaced
    from the left and do not overlap; [skip] counts the characters of an
    occurrence still to pass over. *)
Fixpoint replace_from (skip : nat) (old new s : string) : string :=
  match s with
  | EmptyString => EmptyString
  | String c t =>
      match skip with
      | S k => replace_from k old new t
      | O =>
          if prefix old s
          then new ++ replace_from (String.length old - 1) old new t
          else String c (replace_from O old new t)
      end
  end.

Definition replace (old new s : string) : string := replace_from O old new s.

(** [derive_temp_output_path]: the name of the file; the path returned is
    that name under [tempfile.gettempdir()]. *)
Definition derive_temp_output_path (repo_url : string) : string :=
  let parts := split "/" (rstrip "/" repo_url) in
  if (2 <=? List.length parts)%nat then
    let repo_name := last parts EmptyString in
    let repo_name :=
      if endswith ".git" repo_name
      then substring 0 (String.length repo_name - 4) repo_name
      else repo_name in
    repo_name ++ ".html"
  else "repo.html".

(** The name [build_html] puts into the title (line 271). *)
Definition repo_name (repo_url : string) : string :=
  match repo_url with
  | EmptyString => "Repository"
  | _ => replace ".git" "" (last (split "/" repo_url) EmptyString)
  end.

(** ** The summary [main] prints after scanning (lines 1071-1072) *)

(** [sum(1 for i in infos if i.decision.include)]. *)
Definition rendered_count (infos : list FileInfo) : Z :=
  fold_left (fun acc i => if included i then acc + 1 else acc) infos 0.

Definition skipped_count (infos : list FileInfo) : Z :=
  Z.of_nat (List.length infos) - rendered_count infos.

(** ** Notions used in the statements *)

(** The decision [decide_file] takes once the size is known. *)
Definition classify (fs : filesystem) (p : string) (sz max_bytes : Z)
  : RenderDecision :=
  if in_git p then {| include := false; reason := "ignored" |}
  else if sz >? max_bytes then {| include := false; reason := "too_large" |}
  else if looks_binary fs p then {| include := false; reason := "binary" |}
  else {| include := true; reason := "ok" |}.

(** The paths [collect_files] hands to [decide_file]. *)
Definition regular (fs : filesystem) (p : string) : bool :=
  negb (is_symlink fs p) && is_file fs p.

(** How many records carry reason [r]. *)
Definition count_reason (r : string) (infos : list FileInfo) : nat :=
  List.length (filter (has_reason r) infos).

Definition b2n (b : bool) : nat := if b then 1%nat else 0%nat.





(** ** Sample inputs

    A small working tree: a [.git] directory, a markdown file, files at and
    just above a threshold of 100 bytes, an image, a file with a NUL byte,
    a file that cannot be opened, one that vanished before [stat], a
    symbolic link and a directory. *)

Definition sample_listing : list string :=
  ["src"; "src/main.txt"; "README.md"; "logo.png"; ".git/config"; "big.txt";
   "edge.txt"; "nul.txt"; "locked.txt"; "gone.txt"; "link"].

Definition sample_stat (p : string) : result Z :=
  if String.eqb p "gone.txt" then Raise (FileNotFoundError "No such file")
  else if String.eqb p "big.txt" then Ok 101
  else if String.eqb p "edge.txt" then Ok 100
  else if String.eqb p ".git/config" then Ok 500
  else Ok 5.

Definition sample_bytes (p : string) : result (list byte) :=
  if String.eqb p "locked.txt" then Raise (OSError "Permission denied")
  else if String.eqb p "gone.txt" then Raise (FileNotFoundError "No such file")
  else if String.eqb p "nul.txt" then Ok [x61; x00; x62]
  else Ok (list_byte_of_string "hello").

Definition sample_text (p : string) : result string :=
  if String.eqb p "README.md" then Raise (OSError "Input/output error")
  else if String.eqb p "edge.txt" then Ok "<b>&</b>"
  else Ok "hello".

Definition sample_fs : filesystem :=
  {| is_symlink := fun p => String.eqb p "link";
     is_file := fun p => negb (String.eqb p "src");
     stat_size := sample_stat;
     read_bytes := sample_bytes;
     read_text := sample_text |}.

(** The same tree, with [stat] on one file failing for lack of permission. *)
Definition denied_fs : filesystem :=
  {| is_symlink := is_symlink sample_fs;
     is_file := is_file sample_fs;
     stat_size := fun p => if String.eqb p "edge.txt"
                           then Raise (OSError "Permission denied")
                           else sample_stat p;
     read_bytes := sample_bytes;
     read_text := sample_text |}.

(** A working tree as [iterdir] shows it, in no particular order. *)
Definition sample_tree : node :=
  Dir "repo"
    [File "b.txt"; Dir ".git" [File "config"];
     Dir "src" [File "Z.py"; File "a.py"; Dir "x" []];
     File "A.md"; Dir "Docs" [File "i.md"]].

(** A text of 8191 letters followed by a two-byte character, so that the
    first 8192 bytes end in the middle of that character. *)
Definition cut_text : list byte :=
  (repeat x61 (Z.to_nat 8191) ++ [xc3; xa9])%list.

Definition cut_fs : filesystem :=
  {| is_symlink := fun _ => false;
     is_file := fun _ => true;
     stat_size := fun _ => Ok 8193;
     read_bytes := fun _ => Ok cut_text;
     read_text := fun _ => Ok "" |}.


Definition mk_info (p : string) (sz : Z) (inc : bool) (r : string) : FileInfo :=
  {| path := p; rel := p; size := sz;
     decision := {| include := inc; reason := r |} |}.

Definition sample_infos : list FileInfo :=
  [mk_info ".git/config" 500 false "ignored";
   mk_info "README.md" 5 true "ok";
   mk_info "big.txt" 101 false "too_large";
   mk_info "edge.txt" 100 true "ok";
   mk_info "gone.txt" 0 false "binary";
   mk_info "locked.txt" 5 false "binary";
   mk_info "logo.png" 5 false "binary";
   mk_info "nul.txt" 5 false "binary";
   mk_info "src/main.txt" 5 true "ok"].




(** Every character of a string passes a test. *)
Fixpoint all_chars (P : ascii -> bool) (s : string) : bool :=
  match s with
  | EmptyString => true
  | String c t => P c && all_chars P t
  end.

(** The characters that open or close markup: [<], [>] and the two quotes. *)
Definition markup_char (c : ascii) : bool :=
  let n := ascii_code c in
  ((n =? 60) || (n =? 62) || (n =? 34) || (n =? 39))%N.

(** The characters [html.escape] rewrites. *)
Definition escaped_char (c : ascii) : bool :=
  markup_char c || (ascii_code c =? 38)%N.





(** The order of paths. *)
Definition path_le (p q : string) : Prop := path_leb p q = true.

(** What every collected record satisfies. *)
Definition well_decided (i : FileInfo) : Prop :=
  In (reason (decision i)) ["ok"; "binary"; "too_large"; "ignored"]
  /\ (b2n (has_reason "ok" i) + b2n (has_reason "binary" i)
      + b2n (has_reason "too_large" i) + b2n (has_reason "ignored" i) = 1)%nat
  /\ (include (decision i) = true <-> reason (decision i) = "ok").

(** * Properties *)

(** ** Sorting keeps the elements *)

Section SortFacts.
Context {A : Type} (leb : A -> A -> bool).

Lemma insert_perm (x : A) (l : list A) :
  Permutation (insert leb x l) (x :: l).
Proof.
  induction l as [|y l IH]; simpl.
  - reflexivity.
  - destruct (leb x y).
    + reflexivity.
    + rewrite IH. apply perm_swap.
Qed.

Lemma sort_perm (l : list A) : Permutation (sort leb l) l.
Proof.
  induction l as [|x l IH]; simpl.
  - constructor.
  - rewrite insert_perm. now constructor.
Qed.

Lemma sort_length (l : list A) : List.length (sort leb l) = List.length l.
Proof. apply Permutation_length, sort_perm. Qed.

Lemma filter_perm_length (f : A -> bool) (l l' : list A) :
  Permutation l l' -> List.length (filter f l) = List.length (filter f l').
Proof.
  induction 1; simpl; auto.
  - destruct (f x); simpl; auto.
  - destruct (f x), (f y); simpl; auto.
  - congruence.
Qed.

End SortFacts.

(** ** The result monad *)

Lemma bind_ok {A B : Type} (c : result A) (k : A -> result B) (b : B) :
  bind c k = Ok b -> exists a, c = Ok a /\ k a = Ok b.
Proof. destruct c; simpl; intros H; [eauto | discriminate]. Qed.

Lemma bind_raise {A B : Type} (c : result A) (k : A -> result B) (e : exn) :
  bind c k = Raise e -> c = Raise e \/ exists a, c = Ok a /\ k a = Raise e.
Proof. destruct c; simpl; intros H; [eauto | left; congruence]. Qed.

(** ** Paths and their components *)

Lemma prefix_nil (t : string) : prefix "" t = true.
Proof. now destruct t. Qed.

Lemma prefix_cons (a c : ascii) (s t : string) :
  prefix (String a s) (String c t) = Ascii.eqb a c && prefix s t.
Proof.
  simpl. destruct (ascii_dec a c) as [->|H].
  - now rewrite Ascii.eqb_refl.
  - apply Ascii.eqb_neq in H. now rewrite H.
Qed.

Lemma prefix_cons_nil (a : ascii) (s : string) : prefix (String a s) "" = false.
Proof. reflexivity. Qed.

Lemma str_in_cons (needle : string) (c : ascii) (t : string) :
  str_in needle (String c t) = prefix needle (String c t) || str_in needle t.
Proof. simpl. now destruct (prefix needle (String c t)). Qed.

Lemma split_nonempty (sep : ascii) (s : string) : split sep s <> [].
Proof.
  induction s as [|c s IH]; simpl; [discriminate|].
  destruct (Ascii.eqb c sep); [discriminate|].
  destruct (split sep s); [contradiction|discriminate].
Qed.

Lemma split_cons (sep c : ascii) (s : string) :
  split sep (String c s)
  = if Ascii.eqb c sep then "" :: split sep s
    else String c (hd "" (split sep s)) :: tl (split sep s).
Proof.
  simpl. destruct (Ascii.eqb c sep); auto.
  pose proof (split_nonempty sep s).
  destruct (split sep s); [contradiction|reflexivity].
Qed.

(** [w], which has no slash, is the first component of [s]. *)
Lemma prefix_component (w s : string) :
  str_in "/" w = false ->
  prefix (w ++ "/") (s ++ "/") = true <-> hd "" (split "/" s) = w.
Proof.
  revert s. induction w as [|a w IH]; intros s Hw.
  - destruct s as [|c s]; [simpl; tauto|].
    rewrite split_cons. cbn [append]. rewrite prefix_cons, prefix_nil, andb_true_r.
    rewrite Ascii.eqb_sym.
    destruct (Ascii.eqb c "/"); simpl; split; auto; discriminate.
  - rewrite str_in_cons, prefix_cons, prefix_nil, andb_true_r in Hw.
    apply orb_false_elim in Hw as (Ha & Hw).
    pose proof (fun s => IH s Hw) as IH'. clear IH.
    destruct s as [|c s].
    + cbn [append]. rewrite prefix_cons, Ascii.eqb_sym, Ha. simpl. split; discriminate.
    + rewrite split_cons. cbn [append]. rewrite prefix_cons.
      destruct (Ascii.eqb_spec a c) as [<-|Hac].
      * rewrite Ascii.eqb_sym in Ha. rewrite Ha. simpl. rewrite (IH' s).
        split; [intros ->; reflexivity|intros H; now inversion H].
      * simpl. split; [discriminate|].
        destruct (Ascii.eqb c "/"); simpl; intros H; inversion H. congruence.
Qed.

(** [.git] is a component of [s] after the first. *)
Lemma later_component (s : string) :
  str_in "/.git/" (s ++ "/") = true <-> In ".git" (tl (split "/" s)).
Proof.
  induction s as [|c s IH].
  - simpl. split; [discriminate|tauto].
  - rewrite split_cons. cbn [append]. rewrite str_in_cons, prefix_cons.
    pose proof (split_nonempty "/" s) as Hne.
    pose proof (prefix_component ".git" s eq_refl) as Hp.
    change (".git" ++ "/") with ".git/" in Hp.
    rewrite Ascii.eqb_sym.
    destruct (Ascii.eqb c "/"); cbn [tl andb orb]; [|exact IH].
    rewrite orb_true_iff, Hp, IH.
    destruct (split "/" s) as [|h t]; [contradiction|]. simpl.
    split; (intros [H|H]; [left; congruence|right; exact H]).
Qed.

Lemma prefix_app_r (a s t : string) :
  prefix a s = true -> prefix a (s ++ t) = true.
Proof.
  revert s. induction a as [|x a IH]; intros s H; [apply prefix_nil|].
  destruct s as [|c s]; [discriminate|]. cbn [append].
  rewrite prefix_cons in *. apply andb_prop in H as (-> & H).
  now rewrite IH.
Qed.

(** The test of line 105 holds exactly for the paths that have a component
    named [.git]; its second half adds nothing to the first. *)
Lemma in_git_component (rel : string) :
  in_git rel = true <-> In ".git" (split "/" rel).
Proof.
  unfold in_git.
  change ("/" ++ rel ++ "/") with (String "/" (rel ++ "/")).
  rewrite str_in_cons, prefix_cons. cbn [Ascii.eqb Bool.eqb andb].
  pose proof (prefix_component ".git" rel eq_refl) as Hp.
  change (".git" ++ "/") with ".git/" in Hp.
  pose proof (later_component rel) as Hl.
  pose proof (split_nonempty "/" rel) as Hne.
  rewrite !orb_true_iff, Hp, Hl.
  destruct (split "/" rel) as [|h t]; [contradiction|]. simpl. split.
  - intros [[H|H]|H]; auto.
    left. apply (prefix_app_r _ _ "/") in H. apply Hp in H. exact H.
  - intros [H|H]; auto.
Qed.

(** ** The classifier *)

Lemma decide_file_inv fs p max_bytes info :
  decide_file fs p max_bytes = Ok info ->
  stat_or_zero fs p = Ok (size info) /\ path info = p /\ rel info = p /\
  decision info = classify fs p (size info) max_bytes.
Proof.
  unfold decide_file, classify. intros H.
  apply bind_ok in H as (sz & Hsz & H).
  destruct (in_git p); [|destruct (sz >? max_bytes) eqn:E;
                          [|destruct (looks_binary fs p)]];
    inversion H; subst; simpl; rewrite ?E; auto.
Qed.

Lemma decide_file_returns fs p max_bytes sz :
  stat_or_zero fs p = Ok sz ->
  exists info, decide_file fs p max_bytes = Ok info /\ size info = sz.
Proof.
  unfold decide_file. intros ->. simpl.
  destruct (in_git p); [|destruct (sz >? max_bytes);
                          [|destruct (looks_binary fs p)]];
    eexists; split; reflexivity.
Qed.

Lemma decide_file_raises fs p max_bytes e :
  decide_file fs p max_bytes = Raise e <-> stat_or_zero fs p = Raise e.
Proof.
  unfold decide_file. destruct (stat_or_zero fs p) as [sz|e']; simpl.
  - destruct (in_git p); [|destruct (sz >? max_bytes);
                             [|destruct (looks_binary fs p)]];
      split; discriminate.
  - split; intros; congruence.
Qed.


Lemma collect_loop_ok fs ps max_bytes infos :
  collect_loop fs ps max_bytes = Ok infos ->
  Forall2 (fun p i => decide_file fs p max_bytes = Ok i)
          (filter (regular fs) ps) infos.
Proof.
  revert infos. induction ps as [|p ps IH]; simpl; intros infos H.
  - inversion H. constructor.
  - unfold regular at 1. destruct (is_symlink fs p); simpl; auto.
    destruct (is_file fs p); simpl; auto.
    apply bind_ok in H as (i & Hi & H).
    apply bind_ok in H as (is' & His & H).
    inversion H; subst. constructor; auto.
Qed.

Lemma collect_loop_returns fs ps max_bytes :
  (forall p, In p ps -> regular fs p = true ->
             exists sz, stat_or_zero fs p = Ok sz) ->
  exists infos, collect_loop fs ps max_bytes = Ok infos.
Proof.
  induction ps as [|p ps IH]; simpl; intros Hst.
  - eauto.
  - destruct IH as (infos & IH); [intros; apply Hst; auto|].
    specialize (Hst p (or_introl eq_refl)). unfold regular in Hst.
    destruct (is_symlink fs p); simpl in *; eauto.
    destruct (is_file fs p); simpl in *; eauto.
    destruct Hst as (sz & Hsz); auto.
    destruct (decide_file_returns fs p max_bytes sz Hsz) as (i & -> & _).
    simpl. rewrite IH. simpl. eauto.
Qed.

Lemma collect_loop_aborts fs ps max_bytes p e :
  In p ps -> regular fs p = true -> stat_or_zero fs p = Raise e ->
  exists e', collect_loop fs ps max_bytes = Raise e'.
Proof.
  induction ps as [|q ps IH]; simpl; intros Hin Hreg Hst; [tauto|].
  destruct Hin as [->|Hin].
  - unfold regular in Hreg. apply andb_prop in Hreg as (Hs & Hf).
    apply negb_true_iff in Hs. rewrite Hs, Hf.
    apply decide_file_raises with (max_bytes := max_bytes) in Hst.
    rewrite Hst. simpl. eauto.
  - destruct (IH Hin Hreg Hst) as (e' & IHe).
    destruct (is_symlink fs q); eauto.
    destruct (is_file fs q); eauto.
    destruct (decide_file fs q max_bytes); simpl; eauto.
    rewrite IHe. simpl. eauto.
Qed.

(** Each decision [decide_file] makes is one of the four, with the include
    flag set for "ok" only. *)
Lemma classify_cases fs p sz max_bytes :
  let d := classify fs p sz max_bytes in
  (d = {| include := true; reason := "ok" |}) \/
  (d = {| include := false; reason := "binary" |}) \/
  (d = {| include := false; reason := "too_large" |}) \/
  (d = {| include := false; reason := "ignored" |}).
Proof.
  unfold classify.
  destruct (in_git p); auto.
  destruct (sz >? max_bytes); auto.
  destruct (looks_binary fs p); auto.
Qed.

Lemma collected_decisions fs listing max_bytes infos :
  collect_files fs listing max_bytes = Ok infos ->
  Forall (fun i => exists p sz, decision i = classify fs p sz max_bytes) infos.
Proof.
  intros H. apply collect_loop_ok in H.
  induction H as [|p i ps is' Hd _ IH]; constructor; auto.
  apply decide_file_inv in Hd as (_ & _ & _ & Hd). eauto.
Qed.

Lemma collected_wf fs listing max_bytes infos :
  collect_files fs listing max_bytes = Ok infos -> Forall well_decided infos.
Proof.
  intros H. eapply Forall_impl; [|apply (collected_decisions _ _ _ _ H)].
  intros i (p & sz & Hd). unfold well_decided, has_reason. rewrite Hd.
  destruct (classify_cases fs p sz max_bytes) as [E|[E|[E|E]]];
    rewrite E; simpl; repeat split; auto; discriminate.
Qed.

Lemma collected_length fs listing max_bytes infos :
  collect_files fs listing max_bytes = Ok infos ->
  List.length infos = List.length (filter (regular fs) listing).
Proof.
  intros H. apply collect_loop_ok, Forall2_length in H. rewrite <- H.
  apply filter_perm_length, sort_perm.
Qed.

Lemma count_partition (infos : list FileInfo) :
  Forall well_decided infos ->
  (count_reason "ok" infos + count_reason "binary" infos
   + count_reason "too_large" infos + count_reason "ignored" infos
   = List.length infos)%nat.
Proof.
  unfold count_reason.
  induction 1 as [|i l (_ & Hi & _) _ IH]; simpl; [reflexivity|].
  destruct (has_reason "ok" i), (has_reason "binary" i),
    (has_reason "too_large" i), (has_reason "ignored" i);
    simpl in *; try discriminate; lia.
Qed.

(** C2.  Every record [collect_files] produces carries exactly one of the
    four reasons, its include flag is set if and only if that reason is
    "ok", and the four per-reason counts add up to the number of records,
    which is the number of regular files discovered. *)
Theorem classification_invariant fs listing max_bytes infos
  (H : collect_files fs listing max_bytes = Ok infos) :
  Forall (fun i =>
            In (reason (decision i)) ["ok"; "binary"; "too_large"; "ignored"]
            /\ (b2n (has_reason "ok" i) + b2n (has_reason "binary" i)
                + b2n (has_reason "too_large" i)
                + b2n (has_reason "ignored" i) = 1)%nat
            /\ (include (decision i) = true <-> reason (decision i) = "ok"))
         infos
  /\ (count_reason "ok" infos + count_reason "binary" infos
      + count_reason "too_large" infos + count_reason "ignored" infos
      = List.length infos)%nat
  /\ List.length infos = List.length (filter (regular fs) listing).
Proof.
  pose proof (collected_wf _ _ _ _ H) as Hall.
  split; [exact Hall|]. split.
  - now apply count_partition.
  - exact (collected_length _ _ _ _ H).
Qed.

(** ** The binary heuristic *)


(** The decoder accepts the connectors of the tree and the last code point,
    and rejects a truncated sequence, an overlong form, a surrogate and a
    code point above U+10FFFF. *)
Lemma utf8_examples :
  Utf8.decodes (list_byte_of_string "├── ") = true
  /\ Utf8.well_formed [244; 143; 191; 191]%N = true
  /\ Utf8.well_formed [226; 148]%N = false
  /\ Utf8.well_formed [192; 128]%N = false
  /\ Utf8.well_formed [237; 160; 128]%N = false
  /\ Utf8.well_formed [244; 144; 128; 128]%N = false.
Proof. vm_compute. repeat split. Qed.



(** ** Sample run of the classifier *)

Lemma sample_collect :
  collect_files sample_fs sample_listing 100 = Ok sample_infos.
Proof. vm_compute. reflexivity. Qed.


Lemma classification_invariant_witness :
  (count_reason "ok" sample_infos + count_reason "binary" sample_infos
   + count_reason "too_large" sample_infos + count_reason "ignored" sample_infos
   = List.length sample_infos)%nat
  /\ List.length sample_infos
     = List.length (filter (regular sample_fs) sample_listing).
Proof.
  apply (classification_invariant sample_fs sample_listing 100 sample_infos).
  vm_compute. reflexivity.
Defined.


(** ** Errors during the traversal *)

Lemma stat_or_zero_cases fs p :
  (exists sz, stat_or_zero fs p = Ok sz) \/
  (exists m, stat_size fs p = Raise (OSError m)
             /\ stat_or_zero fs p = Raise (OSError m)).
Proof.
  unfold stat_or_zero. destruct (stat_size fs p) as [n|[m|m]]; eauto.
Qed.

Lemma collect_loop_records fs ps max_bytes infos :
  collect_loop fs ps max_bytes = Ok infos ->
  Forall2
    (fun p i =>
       rel i = p
       /\ (forall m, stat_size fs p = Raise (FileNotFoundError m) -> size i = 0)
       /\ (forall n, stat_size fs p = Ok n -> size i = n)
       /\ (forall e, read_bytes fs p = Raise e ->
           include (decision i) = false
           /\ (in_git p = false -> size i <= max_bytes ->
               reason (decision i) = "binary")))
    (filter (regular fs) ps) infos.
Proof.
  intros H. apply collect_loop_ok in H.
  induction H as [|p i ps' is' Hd _ IH]; constructor; auto.
  apply decide_file_inv in Hd as (Hst & _ & Hrel & Hdec).
  unfold stat_or_zero in Hst.
  split; auto. split; [|split].
  - intros m Hm. rewrite Hm in Hst. congruence.
  - intros n Hn. rewrite Hn in Hst. congruence.
  - intros e He.
    assert (Hb : looks_binary fs p = true).
    { unfold looks_binary. rewrite He. now destruct (str_mem _ _). }
    rewrite Hdec. unfold classify. rewrite Hb.
    destruct (in_git p); [split; [reflexivity|discriminate]|].
    destruct (size i >? max_bytes) eqn:Es; simpl; split; auto.
    intros _ Hle. apply Z.gtb_lt in Es. lia.
Qed.

(** C9, as the code has it.  A [stat] that fails with [FileNotFoundError]
    gives the record size 0; a file that cannot be read is reported binary
    and keeps the size [stat] gave; in both cases the record is produced
    and the traversal goes on, so that every regular file gets its record,
    in sorted order.  Any other error of [stat] is not handled by
    [decide_file] and ends the traversal. *)
Theorem traversal_recovers fs listing max_bytes :
  ((forall p m, In p listing -> regular fs p = true ->
                stat_size fs p <> Raise (OSError m)) ->
   exists infos,
     collect_files fs listing max_bytes = Ok infos /\
     Forall2
       (fun p i =>
          rel i = p
          /\ (forall m, stat_size fs p = Raise (FileNotFoundError m) ->
              size i = 0)
          /\ (forall n, stat_size fs p = Ok n -> size i = n)
          /\ (forall e, read_bytes fs p = Raise e ->
              include (decision i) = false
              /\ (in_git p = false -> size i <= max_bytes ->
                  reason (decision i) = "binary")))
       (filter (regular fs) (sort path_leb listing)) infos)
  /\ (forall p m, In p listing -> regular fs p = true ->
                  stat_size fs p = Raise (OSError m) ->
      exists e, collect_files fs listing max_bytes = Raise e).
Proof.
  unfold collect_files. split.
  - intros Hst.
    destruct (collect_loop_returns fs (sort path_leb listing) max_bytes)
      as (infos & Hc).
    { intros p Hin Hreg.
      apply (Permutation_in _ (sort_perm path_leb listing)) in Hin.
      destruct (stat_or_zero_cases fs p) as [?|(m & Hm & _)]; auto.
      exfalso. exact (Hst p m Hin Hreg Hm). }
    exists infos. split; auto. now apply collect_loop_records.
  - intros p m Hin Hreg Hm.
    apply (collect_loop_aborts fs _ max_bytes p (OSError m)); auto.
    + apply (Permutation_in _ (Permutation_sym (sort_perm path_leb listing))).
      exact Hin.
    + unfold stat_or_zero. now rewrite Hm.
Qed.

Lemma traversal_recovers_witness :
  exists infos,
    collect_files sample_fs sample_listing 100 = Ok infos /\
    Forall2
      (fun p i =>
         rel i = p
         /\ (forall m, stat_size sample_fs p = Raise (FileNotFoundError m) ->
             size i = 0)
         /\ (forall n, stat_size sample_fs p = Ok n -> size i = n)
         /\ (forall e, read_bytes sample_fs p = Raise e ->
             include (decision i) = false
             /\ (in_git p = false -> size i <= 100 ->
                 reason (decision i) = "binary")))
      (filter (regular sample_fs) (sort path_leb sample_listing)) infos.
Proof.
  apply (proj1 (traversal_recovers sample_fs sample_listing 100)).
  intros p m Hin _. simpl. unfold sample_stat.
  repeat (destruct (String.eqb p _)); discriminate.
Defined.

(** C9, as stated, fails twice.  A file that cannot be read keeps its real
    size (5 bytes here, not 0); and a [stat] that fails with another error
    than [FileNotFoundError] ends the traversal without any record. *)
Lemma traversal_error_counterexample :
  read_bytes sample_fs "locked.txt" = Raise (OSError "Permission denied")
  /\ collect_files sample_fs ["locked.txt"] 100
     = Ok [mk_info "locked.txt" 5 false "binary"]
  /\ stat_size denied_fs "edge.txt" = Raise (OSError "Permission denied")
  /\ collect_files denied_fs sample_listing 100
     = Raise (OSError "Permission denied").
Proof. vm_compute. repeat split. Qed.

(** ** Order of strings and of sort keys *)

Lemma ascii_compare_refl (a : ascii) : Ascii.compare a a = Eq.
Proof. unfold Ascii.compare. apply N.compare_refl. Qed.

Lemma string_compare_refl (s : string) : String.compare s s = Eq.
Proof.
  induction s as [|a s IH]; simpl; auto. now rewrite ascii_compare_refl.
Qed.

Lemma string_compare_trans (s1 s2 s3 : string) :
  String.compare s1 s2 <> Gt -> String.compare s2 s3 <> Gt ->
  String.compare s1 s3 <> Gt.
Proof.
  revert s2 s3. induction s1 as [|a s1 IH]; intros [|b s2] [|c s3];
    simpl; try congruence.
  unfold Ascii.compare.
  destruct (N.compare_spec (N_of_ascii a) (N_of_ascii b)) as [Hab|Hab|Hab];
    destruct (N.compare_spec (N_of_ascii b) (N_of_ascii c)) as [Hbc|Hbc|Hbc];
    destruct (N.compare_spec (N_of_ascii a) (N_of_ascii c)) as [Hac|Hac|Hac];
    try congruence; try lia.
  apply IH.
Qed.





(** ** Sorting sorts *)

Section SortOrder.
Context {A : Type} (leb : A -> A -> bool).
Hypothesis leb_total : forall a b, leb a b = true \/ leb b a = true.
Hypothesis leb_trans :
  forall a b c, leb a b = true -> leb b c = true -> leb a c = true.

Let le (a b : A) : Prop := leb a b = true.

Lemma insert_sorted (x : A) (l : list A) :
  StronglySorted le l -> StronglySorted le (insert leb x l).
Proof.
  induction 1 as [|y l Hs IH Hall]; simpl.
  - repeat constructor.
  - destruct (leb x y) eqn:E.
    + constructor; [constructor; auto|].
      constructor; auto.
      eapply Forall_impl; [|exact Hall]. intros z Hz. now apply leb_trans with y.
    + constructor; auto.
      apply (Permutation_Forall (Permutation_sym (insert_perm leb x l))).
      constructor; auto.
      destruct (leb_total x y); [congruence|assumption].
Qed.

Lemma sort_sorted (l : list A) : StronglySorted le (sort leb l).
Proof.
  induction l as [|x l IH]; simpl; [constructor|]. now apply insert_sorted.
Qed.

End SortOrder.

(** Entries of equal key keep the order [iterdir] gave them.  [same] is
    any class of entries closed under having the same key. *)
Section SortStable.
Context {A : Type} (leb : A -> A -> bool) (same : A -> bool).
Hypothesis leb_same :
  forall a b, same a = true -> same b = true -> leb a b = true.



End SortStable.

(** Sorting and filtering the entries paired with their recursive calls is
    sorting and filtering the entries. *)
Section Pairing.
Context {A B : Type} (f : A -> B).





End Pairing.

(** ** The fallback tree *)






Lemma sample_tree_lines :
  generate_tree_fallback sample_tree
  = Ok (String.concat nl
          ["repo";
           "├── Docs";
           "│   └── i.md";
           "├── src";
           "│   ├── x";
           "│   ├── a.py";
           "│   └── Z.py";
           "├── A.md";
           "└── b.txt"]).
Proof. vm_compute. reflexivity. Qed.

(** ** Human-readable sizes *)


Lemma bytes_human_examples :
  bytes_human 0 = "0 B" /\ bytes_human 1023 = "1023 B"
  /\ bytes_human 1024 = "1.0 KiB" /\ bytes_human 1536 = "1.5 KiB"
  /\ bytes_human 1280 = "1.2 KiB" /\ bytes_human 1048576 = "1.0 MiB"
  /\ bytes_human MAX_DEFAULT_BYTES = "50.0 KiB".
Proof. vm_compute. repeat split. Qed.

(** ** Strings inside strings *)

Lemma str_app_assoc (a b c : string) : (a ++ b) ++ c = a ++ (b ++ c).
Proof. induction a as [|x a IH]; simpl; [reflexivity|now rewrite IH]. Qed.

Lemma prefix_app (s t : string) : prefix s (s ++ t) = true.
Proof.
  induction s as [|a s IH]; simpl.
  - now destruct t.
  - destruct (ascii_dec a a); [exact IH|contradiction].
Qed.

Lemma str_in_prefix (s t : string) : str_in s (s ++ t) = true.
Proof.
  destruct s as [|a s]; [now destruct t|].
  change (str_in (String a s) (String a s ++ t))
    with (if prefix (String a s) (String a s ++ t) then true
          else str_in (String a s) (s ++ t)).
  now rewrite prefix_app.
Qed.

Lemma str_in_app_r (needle pre hay : string) :
  str_in needle hay = true -> str_in needle (pre ++ hay) = true.
Proof.
  intros H. induction pre as [|c pre IH]; simpl; [exact H|].
  rewrite IH.
  match goal with |- (if ?b then _ else _) = _ => now destruct b end.
Qed.


Lemma prefix_app_both (a s t : string) :
  prefix s t = true -> prefix (a ++ s) (a ++ t) = true.
Proof.
  intros H. induction a as [|x a IH]; simpl; [exact H|].
  destruct (ascii_dec x x); [exact IH|contradiction].
Qed.

(** Finds a piece of a concatenation, whatever stands before and after. *)
Ltac find_piece :=
  rewrite ?str_app_assoc;
  repeat first [apply str_in_prefix | apply str_in_app_r].

Lemma concat_member (sep x : string) (l : list string) :
  In x l -> exists pre post, String.concat sep l = pre ++ x ++ post.
Proof.
  induction l as [|y l IH]; simpl; [tauto|].
  intros [->|Hin].
  - destruct l as [|z l].
    + exists "", "". simpl. clear. induction x; simpl; congruence.
    + exists "", (sep ++ String.concat sep (z :: l)). reflexivity.
  - destruct (IH Hin) as (pre & post & E). destruct l as [|z l]; [destruct Hin|].
    rewrite E. exists (y ++ sep ++ pre), post.
    now rewrite !str_app_assoc.
Qed.

(** ** The skip lists *)

Lemma render_skip_list_empty (title : string) (items : list FileInfo) :
  render_skip_list title items = "" <-> items = [].
Proof.
  destruct items; simpl; split; auto; discriminate.
Qed.

Lemma render_skip_list_member (title : string) (items : list FileInfo)
  (i : FileInfo) :
  In i items -> str_in (skip_item i) (render_skip_list title items) = true.
Proof.
  intros Hin.
  destruct (concat_member nl (skip_item i) (map skip_item items))
    as (pre & post & E); [now apply in_map|].
  destruct items as [|j items]; [destruct Hin|].
  unfold render_skip_list. rewrite E. find_piece.
Qed.

Lemma skip_item_shows (i : FileInfo) :
  str_in (html_escape (rel i)) (skip_item i) = true
  /\ str_in (bytes_human (size i)) (skip_item i) = true.
Proof.
  unfold skip_item. split; find_piece.
Qed.

Lemma build_html_inv body fs tree_cmd repo_dir infos art :
  build_html body fs tree_cmd repo_dir infos = Ok art ->
  exists tree_text,
    try_tree_command tree_cmd repo_dir = Ok tree_text /\
    art = {| toc_html := String.concat "" (map toc_item (filter included infos));
             total_files :=
               (List.length (filter included infos)
                + List.length (filter (has_reason "binary") infos)
                + List.length (filter (has_reason "too_large") infos)
                + List.length (filter (has_reason "ignored") infos))%nat;
             stat_rendered := List.length (filter included infos);
             stat_skipped :=
               (List.length (filter (has_reason "binary") infos)
                + List.length (filter (has_reason "too_large") infos))%nat;
             stat_total_size := bytes_human (sum_sizes (filter included infos));
             tree_block := html_escape tree_text;
             skipped_html :=
               render_skip_list "Skipped binaries"
                 (filter (has_reason "binary") infos)
               ++ render_skip_list "Skipped large files"
                    (filter (has_reason "too_large") infos);
             sections_html :=
               String.concat ""
                 (map (fun i => section_html i (body i))
                      (filter included infos));
             llm_text := html_escape (generate_cxml_text fs infos) |}.
Proof.
  unfold build_html. intros H. apply bind_ok in H as (tree_text & Ht & H).
  exists tree_text. split; auto. now inversion H.
Qed.

(** C5, as the code has it.  The page has one collapsible group for the
    binary files and one for the too large files, each present exactly when
    it has a member and showing the escaped relative path and the human
    size of every member; there is no group for the ignored files, so a
    classification with nothing but ignored files has no skip list. *)
Theorem skip_lists body fs tree_cmd repo_dir infos art
  (H : build_html body fs tree_cmd repo_dir infos = Ok art) :
  let binaries := filter (has_reason "binary") infos in
  let large := filter (has_reason "too_large") infos in
  skipped_html art
  = render_skip_list "Skipped binaries" binaries
    ++ render_skip_list "Skipped large files" large
  /\ (forall title items, render_skip_list title items = "" <-> items = [])
  /\ (forall title items, items <> [] ->
      prefix ("<details class='skip-section'><summary>" ++ html_escape title
              ++ " (" ++ str_of_nat (List.length items) ++ ")</summary>")
             (render_skip_list title items) = true)
  /\ (forall title items i, In i items ->
      str_in (skip_item i) (render_skip_list title items) = true)
  /\ (forall i, str_in (html_escape (rel i)) (skip_item i) = true
                /\ str_in (bytes_human (size i)) (skip_item i) = true)
  /\ (binaries = [] -> large = [] -> skipped_html art = "").
Proof.
  intros binaries large.
  apply build_html_inv in H as (tree_text & _ & ->). simpl.
  split; [reflexivity|]. split; [apply render_skip_list_empty|].
  split; [|split; [apply render_skip_list_member|split; [apply skip_item_shows|]]].
  - intros title [|j items] Hne; [contradiction|].
    unfold render_skip_list. rewrite ?str_app_assoc.
    repeat apply prefix_app_both. apply prefix_app.
  - fold binaries large. intros -> ->. reflexivity.
Qed.

Lemma skip_lists_witness :
  exists art,
    build_html (fun _ => "") sample_fs (Ok "tree") sample_tree sample_infos
    = Ok art
    /\ skipped_html art
       = render_skip_list "Skipped binaries"
           (filter (has_reason "binary") sample_infos)
         ++ render_skip_list "Skipped large files"
              (filter (has_reason "too_large") sample_infos).
Proof.
  eexists. split; [reflexivity|].
  apply (skip_lists (fun _ => "") sample_fs (Ok "tree") sample_tree
           sample_infos _ eq_refl).
Defined.

(** C5, as stated, fails for the reason "ignored": a classification whose
    only record is an ignored file yields a page without any skip list. *)
Lemma skip_list_counterexample :
  collect_files sample_fs [".git/config"] 100
  = Ok [mk_info ".git/config" 500 false "ignored"]
  /\ exists art,
       build_html (fun _ => "") sample_fs (Ok "tree") sample_tree
         [mk_info ".git/config" 500 false "ignored"] = Ok art
       /\ skipped_html art = "".
Proof.
  split; [vm_compute; reflexivity|].
  eexists. split; reflexivity.
Qed.

(** ** The stats block *)

Lemma sum_sizes_from (l : list FileInfo) (a : Z) :
  fold_left (fun acc i => acc + size i) l a
  = a + fold_right Z.add 0 (map size l).
Proof.
  revert a. induction l as [|i l IH]; intros a; simpl; [lia|].
  rewrite IH. lia.
Qed.

Lemma sum_sizes_map (l : list FileInfo) :
  sum_sizes l = fold_right Z.add 0 (map size l).
Proof. unfold sum_sizes. now rewrite sum_sizes_from. Qed.

Lemma included_ok (infos : list FileInfo) :
  Forall well_decided infos ->
  filter included infos = filter (has_reason "ok") infos.
Proof.
  induction 1 as [|i l (_ & _ & Hi) _ IH]; simpl; [reflexivity|].
  unfold included at 1, has_reason at 1.
  destruct (include (decision i)) eqn:Ei.
  - rewrite (proj1 Hi eq_refl). simpl. now rewrite IH.
  - destruct (String.eqb_spec (reason (decision i)) "ok") as [E|_]; auto.
    apply Hi in E. congruence.
Qed.

(** C6.  For a classification made by [collect_files], the stats block
    shows: as total the number of all records, ignored ones included; as
    rendered the number of "ok" records; as skipped the number of "binary"
    plus "too_large" records, the ignored ones left out; and as size the
    human form of the sum of the sizes of the included files. *)
Theorem stats_block body fs0 fs tree_cmd repo_dir listing max_bytes infos art
  (Hc : collect_files fs0 listing max_bytes = Ok infos)
  (Hb : build_html body fs tree_cmd repo_dir infos = Ok art) :
  total_files art = List.length infos
  /\ total_files art
     = (count_reason "ok" infos + count_reason "binary" infos
        + count_reason "too_large" infos + count_reason "ignored" infos)%nat
  /\ stat_rendered art = count_reason "ok" infos
  /\ stat_skipped art
     = (count_reason "binary" infos + count_reason "too_large" infos)%nat
  /\ (stat_rendered art + stat_skipped art + count_reason "ignored" infos
      = total_files art)%nat
  /\ stat_total_size art
     = bytes_human (fold_right Z.add 0 (map size (filter included infos))).
Proof.
  pose proof (collected_wf _ _ _ _ Hc) as Hwf.
  pose proof (count_partition infos Hwf) as Hsum.
  apply build_html_inv in Hb as (tree_text & _ & ->). simpl.
  rewrite (included_ok infos Hwf), <- sum_sizes_map.
  unfold count_reason in *. repeat split; lia.
Qed.

Lemma stats_block_witness :
  exists art,
    build_html (fun _ => "") sample_fs (Ok "tree") sample_tree sample_infos
    = Ok art
    /\ total_files art = 9%nat /\ stat_rendered art = 3%nat
    /\ stat_skipped art = 5%nat /\ stat_total_size art = "110 B".
Proof.
  eexists. split; [reflexivity|].
  destruct (stats_block (fun _ => "") sample_fs sample_fs (Ok "tree")
              sample_tree sample_listing 100 sample_infos _
              sample_collect eq_refl) as (Ht & _ & Hr & Hs & _ & Hz).
  rewrite Ht, Hr, Hs, Hz. vm_compute. repeat split.
Defined.

(** ** The structured export *)

(** What the loop has appended when it ends: one entry per file, numbered
    from [index] on. *)
Lemma cxml_loop_entries fs (index : nat) (rendered : list FileInfo)
  (lines : list string) :
  cxml_loop fs index rendered lines
  = (lines ++ List.concat (map (fun ki => cxml_entry fs (fst ki) (snd ki))
                          (combine (seq index (List.length rendered))
                                   rendered)))%list.
Proof.
  revert index lines. induction rendered as [|i rest IH]; intros index lines.
  - simpl. now rewrite app_nil_r.
  - simpl. rewrite IH. now rewrite <- app_assoc.
Qed.

Lemma entry_block fs (index : nat) (rendered : list FileInfo) (k : nat)
  (i : FileInfo) :
  nth_error rendered k = Some i ->
  firstn 6 (skipn (6 * k)
              (List.concat (map (fun ki => cxml_entry fs (fst ki) (snd ki))
                           (combine (seq index (List.length rendered))
                                    rendered))))
  = cxml_entry fs (index + k) i.
Proof.
  revert index k. induction rendered as [|j rest IH]; intros index k Hk.
  - destruct k; discriminate.
  - destruct k as [|k].
    + inversion Hk; subst. rewrite Nat.add_0_r. reflexivity.
    + replace (6 * S k)%nat with (6 + 6 * k)%nat by lia.
      cbn [List.length seq combine map List.concat].
      change (cxml_entry fs (fst (index, j)) (snd (index, j)))
        with (cxml_entry fs index j).
      unfold cxml_entry at 1.
      cbn [app skipn Nat.add].
      rewrite (IH (S index) k Hk). f_equal. lia.
Qed.

Lemma entries_length fs (index : nat) (rendered : list FileInfo) :
  List.length (List.concat (map (fun ki => cxml_entry fs (fst ki) (snd ki))
                           (combine (seq index (List.length rendered))
                                    rendered)))
  = (6 * List.length rendered)%nat.
Proof.
  revert index. induction rendered as [|j rest IH]; intros index;
    [reflexivity|].
  cbn [List.length seq combine map List.concat].
  rewrite length_app, IH. simpl. lia.
Qed.

(** C7.  The export is [<documents>], then for each included file, in the
    order of the classification (which is also the order of the table of
    contents), a block of six lines, then [</documents>].  The block of
    the [k]-th included file (counting from 0) carries index [k + 1], the
    relative path as it is, and the text of the file as it is, or a failure
    notice when the file cannot be read, in which case the generation goes
    on as well. *)
Theorem export_entries fs (infos : list FileInfo) :
  let rendered := filter included infos in
  let lines := cxml_lines fs infos in
  generate_cxml_text fs infos = String.concat nl lines
  /\ List.length lines = (2 + 6 * List.length rendered)%nat
  /\ nth_error lines 0 = Some "<documents>"
  /\ nth_error lines (1 + 6 * List.length rendered) = Some "</documents>"
  /\ (forall k i, nth_error rendered k = Some i ->
      firstn 6 (skipn (1 + 6 * k) lines)
      = ["<document index=" ++ dquote ++ str_of_nat (k + 1) ++ dquote ++ ">";
         "<source>" ++ rel i ++ "</source>";
         "<document_content>";
         match read_text fs (path i) with
         | Ok text => text
         | Raise e => "Failed to read: " ++ str_of_exn e
         end;
         "</document_content>";
         "</document>"])
  /\ (forall body tree_cmd repo_dir art,
      build_html body fs tree_cmd repo_dir infos = Ok art ->
      toc_html art = String.concat "" (map toc_item rendered)
      /\ llm_text art = html_escape (generate_cxml_text fs infos)).
Proof.
  intros rendered lines.
  assert (Hl : lines
               = ("<documents>"
                  :: List.concat (map (fun ki => cxml_entry fs (fst ki) (snd ki))
                               (combine (seq 1 (List.length rendered))
                                        rendered))
                  ++ ["</documents>"])%list).
  { unfold lines, cxml_lines. fold rendered. now rewrite cxml_loop_entries. }
  split; [reflexivity|]. split; [|split; [|split; [|split]]].
  - rewrite Hl. simpl. rewrite length_app, entries_length. simpl. lia.
  - now rewrite Hl.
  - rewrite Hl. cbn [Nat.add nth_error].
    rewrite nth_error_app2; rewrite entries_length; [|lia].
    now rewrite Nat.sub_diag.
  - intros k i Hk. rewrite Hl. cbn [Nat.add skipn].
    rewrite skipn_app, firstn_app.
    rewrite (entry_block fs 1 rendered k i Hk).
    replace (1 + k)%nat with (k + 1)%nat by lia.
    assert (Hlt : (k < List.length rendered)%nat)
      by (apply nth_error_Some; congruence).
    rewrite length_skipn, entries_length.
    replace (6 - (6 * List.length rendered - 6 * k))%nat with 0%nat by lia.
    unfold cxml_entry. reflexivity.
  - intros body tree_cmd repo_dir art Hb.
    apply build_html_inv in Hb as (tree_text & _ & ->). split; reflexivity.
Qed.

Lemma export_entries_witness :
  cxml_lines sample_fs sample_infos
  = ["<documents>";
     "<document index=" ++ dquote ++ "1" ++ dquote ++ ">";
     "<source>README.md</source>";
     "<document_content>";
     "Failed to read: Input/output error";
     "</document_content>";
     "</document>";
     "<document index=" ++ dquote ++ "2" ++ dquote ++ ">";
     "<source>edge.txt</source>";
     "<document_content>";
     "<b>&</b>";
     "</document_content>";
     "</document>";
     "<document index=" ++ dquote ++ "3" ++ dquote ++ ">";
     "<source>src/main.txt</source>";
     "<document_content>";
     "hello";
     "</document_content>";
     "</document>";
     "</documents>"]
  /\ firstn 6 (skipn (1 + 6 * 1) (cxml_lines sample_fs sample_infos))
     = ["<document index=" ++ dquote ++ str_of_nat (1 + 1) ++ dquote ++ ">";
        "<source>" ++ rel (mk_info "edge.txt" 100 true "ok") ++ "</source>";
        "<document_content>";
        "<b>&</b>";
        "</document_content>";
        "</document>"].
Proof.
  split; [vm_compute; reflexivity|].
  exact (proj1 (proj2 (proj2 (proj2 (proj2
           (export_entries sample_fs sample_infos)))))
           1%nat (mk_info "edge.txt" 100 true "ok") eq_refl).
Defined.

(** ** Slugs *)








(** ** An unusable root *)

Lemma empty_export fs : generate_cxml_text fs [] = "<documents>" ++ nl ++ "</documents>".
Proof. reflexivity. Qed.




(** * Further properties of the code *)

(** ** Sizes in human units *)




(** ** Escaped and slugified text *)

Lemma all_chars_app (P : ascii -> bool) (a b : string) :
  all_chars P (a ++ b) = all_chars P a && all_chars P b.
Proof.
  induction a as [|c a IH]; simpl; [reflexivity|].
  now rewrite IH, andb_assoc.
Qed.


Lemma escape_char_inert (c : ascii) :
  all_chars (fun c => negb (markup_char c)) (escape_char c) = true.
Proof.
  unfold escape_char, markup_char, ascii_code.
  destruct (N.eqb_spec (N_of_ascii c) 38); [reflexivity|].
  destruct (N.eqb_spec (N_of_ascii c) 60); [reflexivity|].
  destruct (N.eqb_spec (N_of_ascii c) 62); [reflexivity|].
  destruct (N.eqb_spec (N_of_ascii c) 34); [reflexivity|].
  destruct (N.eqb_spec (N_of_ascii c) 39); [reflexivity|].
  cbn [all_chars].
  repeat match goal with
         | H : ?a <> ?b |- context [N.eqb ?a ?b] =>
             rewrite (proj2 (N.eqb_neq a b) H)
         end.
  reflexivity.
Qed.

Lemma escape_char_plain (c : ascii) :
  escaped_char c = false -> escape_char c = String c EmptyString.
Proof.
  unfold escaped_char, markup_char, escape_char.
  destruct (ascii_code c =? 38)%N, (ascii_code c =? 60)%N,
    (ascii_code c =? 62)%N, (ascii_code c =? 34)%N, (ascii_code c =? 39)%N;
    simpl; intros H; try discriminate; reflexivity.
Qed.

Lemma html_escape_app (s t : string) :
  html_escape (s ++ t) = html_escape s ++ html_escape t.
Proof.
  induction s as [|c s IH]; simpl; [reflexivity|].
  now rewrite IH, str_app_assoc.
Qed.

Lemma ascii_code_inj (c d : ascii) : ascii_code c = ascii_code d -> c = d.
Proof.
  unfold ascii_code. intros H. apply (f_equal ascii_of_N) in H.
  now rewrite !ascii_N_embedding in H.
Qed.

(** Two characters whose escaped forms start two equal texts are equal. *)
Lemma escape_char_head (c d : ascii) (a b : string) :
  escape_char c ++ a = escape_char d ++ b -> c = d /\ a = b.
Proof.
  unfold escape_char.
  destruct (N.eqb_spec (ascii_code c) 38) as [c1|c1];
    [|destruct (N.eqb_spec (ascii_code c) 60) as [c2|c2];
      [|destruct (N.eqb_spec (ascii_code c) 62) as [c3|c3];
        [|destruct (N.eqb_spec (ascii_code c) 34) as [c4|c4];
          [|destruct (N.eqb_spec (ascii_code c) 39) as [c5|c5]]]]];
    (destruct (N.eqb_spec (ascii_code d) 38) as [d1|d1];
     [|destruct (N.eqb_spec (ascii_code d) 60) as [d2|d2];
       [|destruct (N.eqb_spec (ascii_code d) 62) as [d3|d3];
         [|destruct (N.eqb_spec (ascii_code d) 34) as [d4|d4];
           [|destruct (N.eqb_spec (ascii_code d) 39) as [d5|d5]]]]]);
    cbn [append]; intros H; inversion H; subst;
    try (split; [apply ascii_code_inj; congruence|reflexivity]);
    try (exfalso; vm_compute in *; congruence).
Qed.

Lemma html_escape_free (s : string) :
  all_chars (fun c => negb (markup_char c)) (html_escape s) = true.
Proof.
  induction s as [|c s IH]; simpl; [reflexivity|].
  now rewrite all_chars_app, escape_char_inert, IH.
Qed.

Lemma html_escape_plain (s : string) :
  all_chars (fun c => negb (escaped_char c)) s = true -> html_escape s = s.
Proof.
  induction s as [|c s IH]; simpl; [reflexivity|].
  intros H. apply andb_prop in H as (Hc & Hs).
  apply negb_true_iff in Hc.
  now rewrite (escape_char_plain c Hc), IH.
Qed.

Lemma escape_char_nonempty (c : ascii) (a : string) :
  escape_char c ++ a <> EmptyString.
Proof.
  unfold escape_char.
  repeat match goal with
         | |- context [if ?b then _ else _] => destruct b
         end; discriminate.
Qed.

Lemma html_escape_inj (s t : string) :
  html_escape s = html_escape t -> s = t.
Proof.
  revert t. induction s as [|c s IH]; intros [|d t]; simpl; auto.
  - intros H. symmetry in H. now apply escape_char_nonempty in H.
  - intros H. now apply escape_char_nonempty in H.
  - intros H. apply escape_char_head in H as (-> & H).
    now rewrite (IH t H).
Qed.

(** X2.  The text [html.escape] makes of a string, which is how
    [build_html] puts paths, titles and messages into the page, contains
    none of the characters that open or close markup ([<], [>] and the two
    quotes), whatever the string; escaping works character by character,
    leaves a string without those characters and [&] as it is, and loses
    nothing: two different strings have different escaped forms. *)
Theorem escape_is_inert (s t : string) :
  all_chars (fun c => negb (markup_char c)) (html_escape s) = true
  /\ html_escape (s ++ t) = html_escape s ++ html_escape t
  /\ (all_chars (fun c => negb (escaped_char c)) s = true -> html_escape s = s)
  /\ (html_escape s = html_escape t -> s = t).
Proof.
  split; [apply html_escape_free|]. split; [apply html_escape_app|].
  split; [apply html_escape_plain|apply html_escape_inj].
Qed.

Lemma escape_is_inert_witness :
  html_escape "src/main.py" = "src/main.py"
  /\ html_escape ("a<b" ++ "&c") = "a&lt;b" ++ "&amp;c".
Proof.
  split.
  - apply (escape_is_inert "src/main.py" ""). reflexivity.
  - apply (escape_is_inert "a<b" "&c").
Defined.





(** ** The decision, seen from the path and from the threshold *)

(** X5.  For a file that [stat] can size, [decide_file] gives the reason
    "ignored" exactly when some component of the relative path is named
    [.git]: the directory itself at any depth, anything below it, and also
    a plain file of that name; a name that merely starts with or contains
    [.git], like [.gitignore], is not ignored. *)
Theorem ignored_iff_component fs p max_bytes sz
  (H : stat_or_zero fs p = Ok sz) :
  exists info,
    decide_file fs p max_bytes = Ok info
    /\ (reason (decision info) = "ignored" <-> In ".git" (split "/" p)).
Proof.
  destruct (decide_file_returns fs p max_bytes sz H) as (info & Hd & Hsz).
  exists info. split; [exact Hd|].
  apply decide_file_inv in Hd as (_ & _ & _ & Hdec).
  rewrite <- in_git_component, Hdec. unfold classify.
  destruct (in_git p); [split; reflexivity|].
  destruct (size info >? max_bytes); [split; discriminate|].
  destruct (looks_binary fs p); split; discriminate.
Qed.

Lemma ignored_iff_component_witness :
  exists info,
    decide_file sample_fs "vendor/.git/config" 100 = Ok info
    /\ (reason (decision info) = "ignored"
        <-> In ".git" (split "/" "vendor/.git/config")).
Proof. apply (ignored_iff_component sample_fs _ 100 5). reflexivity. Defined.

(** X6.  Raising the threshold never takes a file out: a record that is
    not "too_large" under [max_bytes] is the very same record under any
    larger threshold, and a record that is "too_large" stays so under any
    smaller one. *)
Theorem threshold_monotone fs p max_bytes max_bytes' info
  (H : decide_file fs p max_bytes = Ok info)
  (Hle : max_bytes <= max_bytes') :
  (reason (decision info) <> "too_large" ->
   decide_file fs p max_bytes' = Ok info)
  /\ (forall info', decide_file fs p max_bytes' = Ok info' ->
      reason (decision info') = "too_large" ->
      reason (decision info) = "too_large").
Proof.
  pose proof (decide_file_inv _ _ _ _ H) as (Hst & Hp & Hrel & Hdec).
  split.
  - intros Hr. revert H Hr. rewrite Hdec. unfold decide_file, classify.
    rewrite Hst. simpl.
    destruct (in_git p); auto.
    destruct (Z.gtb_spec (size info) max_bytes) as [Hgt|Hngt];
      [simpl; congruence|].
    destruct (Z.gtb_spec (size info) max_bytes'); [lia|]. auto.
  - intros info' H' Hr'.
    pose proof (decide_file_inv _ _ _ _ H') as (Hst' & _ & _ & Hdec').
    assert (Hsz : size info' = size info) by congruence.
    revert Hr'. rewrite Hdec, Hdec', Hsz. unfold classify.
    destruct (in_git p); auto.
    destruct (Z.gtb_spec (size info) max_bytes') as [Hgt|Hngt].
    + destruct (Z.gtb_spec (size info) max_bytes); [auto|lia].
    + destruct (looks_binary fs p); simpl; discriminate.
Qed.

Lemma threshold_monotone_witness :
  decide_file sample_fs "edge.txt" 4096 = Ok (mk_info "edge.txt" 100 true "ok").
Proof.
  apply (proj1 (threshold_monotone sample_fs "edge.txt" 100 4096
                  (mk_info "edge.txt" 100 true "ok") eq_refl ltac:(lia))).
  discriminate.
Defined.

(** ** The order of the records *)

Lemma string_compare_Lt_trans (a b c : string) :
  String.compare a b = Lt -> String.compare b c = Lt -> String.compare a c = Lt.
Proof.
  intros Hab Hbc.
  pose proof (string_compare_trans a b c) as Hn.
  destruct (String.compare a c) eqn:Hac; auto.
  - apply String.compare_eq_iff in Hac. subst c.
    rewrite String.compare_antisym, Hab in Hbc. discriminate.
  - exfalso. apply Hn; congruence.
Qed.

Lemma parts_leb_total (p q : list string) :
  parts_leb p q = true \/ parts_leb q p = true.
Proof.
  revert q. induction p as [|a p IH]; intros [|b q]; simpl; auto.
  rewrite (String.compare_antisym a b).
  destruct (String.compare b a); simpl; auto.
Qed.

Lemma parts_leb_trans (p q r : list string) :
  parts_leb p q = true -> parts_leb q r = true -> parts_leb p r = true.
Proof.
  revert q r. induction p as [|a p IH]; intros [|b q] [|c r]; simpl; auto;
    try discriminate.
  destruct (String.compare a b) eqn:Hab; try discriminate;
    destruct (String.compare b c) eqn:Hbc; try discriminate; intros H1 H2.
  - apply String.compare_eq_iff in Hab, Hbc. subst.
    rewrite string_compare_refl. eauto.
  - apply String.compare_eq_iff in Hab. subst. now rewrite Hbc.
  - apply String.compare_eq_iff in Hbc. subst. now rewrite Hab.
  - now rewrite (string_compare_Lt_trans a b c Hab Hbc).
Qed.

Lemma parts_leb_antisym (p q : list string) :
  parts_leb p q = true -> parts_leb q p = true -> p = q.
Proof.
  revert q. induction p as [|a p IH]; intros [|b q]; simpl; auto;
    try discriminate.
  rewrite (String.compare_antisym a b).
  destruct (String.compare b a) eqn:Hba; simpl; try discriminate.
  intros H1 H2. apply String.compare_eq_iff in Hba. subst.
  f_equal. auto.
Qed.

Lemma concat_cons2 (sep x y : string) (l : list string) :
  String.concat sep (x :: y :: l) = x ++ sep ++ String.concat sep (y :: l).
Proof. reflexivity. Qed.

(** [sep.join(s.split(sep))] is [s]. *)
Lemma join_split (sep : ascii) (s : string) :
  String.concat (String sep EmptyString) (split sep s) = s.
Proof.
  induction s as [|c s IH]; [reflexivity|].
  rewrite split_cons. pose proof (split_nonempty sep s) as Hne.
  destruct (split sep s) as [|h t]; [contradiction|].
  destruct (Ascii.eqb_spec c sep) as [->|Hc].
  - rewrite concat_cons2, IH. reflexivity.
  - cbn [hd tl]. destruct t as [|h' t].
    + cbn [String.concat] in *. now rewrite IH.
    + rewrite concat_cons2 in *.
      change (String c h ++ String sep "" ++ String.concat (String sep "") (h' :: t))
        with (String c (h ++ String sep ""
                          ++ String.concat (String sep "") (h' :: t))).
      now rewrite IH.
Qed.

Lemma path_leb_antisym (p q : string) :
  path_leb p q = true -> path_leb q p = true -> p = q.
Proof.
  unfold path_leb. intros H1 H2.
  pose proof (parts_leb_antisym _ _ H1 H2) as E.
  rewrite <- (join_split "/" p), <- (join_split "/" q). now rewrite E.
Qed.

Lemma sorted_filter {A : Type} (le : A -> A -> Prop) (f : A -> bool)
  (l : list A) :
  StronglySorted le l -> StronglySorted le (filter f l).
Proof.
  induction 1 as [|x l Hs IH Hall]; simpl; [constructor|].
  destruct (f x); auto. constructor; auto.
  apply Forall_forall. intros y Hy. apply filter_In in Hy as (Hy & _).
  rewrite Forall_forall in Hall. auto.
Qed.

(** A list has one sorted arrangement only. *)
Lemma sorted_unique {A : Type} (le : A -> A -> Prop)
  (antisym : forall a b, le a b -> le b a -> a = b) (l1 l2 : list A) :
  StronglySorted le l1 -> StronglySorted le l2 -> Permutation l1 l2 ->
  l1 = l2.
Proof.
  intros H1. revert l2. induction H1 as [|x l1 Hs1 IH Hall1];
    intros l2 H2 Hp.
  - apply Permutation_nil in Hp. now subst.
  - destruct H2 as [|y l2 Hs2 Hall2].
    + apply Permutation_sym, Permutation_nil in Hp. discriminate.
    + assert (x = y) as <-.
      { assert (Hx : In x (y :: l2))
          by (apply (Permutation_in _ Hp); left; reflexivity).
        assert (Hy : In y (x :: l1))
          by (apply (Permutation_in _ (Permutation_sym Hp)); left;
              reflexivity).
        rewrite Forall_forall in Hall1, Hall2.
        destruct Hx as [Hx|Hx]; [now subst|].
        destruct Hy as [Hy|Hy]; [now subst|].
        apply antisym; auto. }
      f_equal. apply IH; auto. now apply Permutation_cons_inv in Hp.
Qed.

Lemma sort_paths_sorted (listing : list string) :
  StronglySorted path_le (sort path_leb listing).
Proof.
  apply sort_sorted; unfold path_leb; intros.
  - apply parts_leb_total.
  - eapply parts_leb_trans; eauto.
Qed.

Lemma collect_loop_rels fs ps max_bytes infos :
  collect_loop fs ps max_bytes = Ok infos ->
  map rel infos = filter (regular fs) ps.
Proof.
  intros H. apply collect_loop_ok in H.
  induction H as [|p i ps' is' Hd _ IH]; [reflexivity|].
  apply decide_file_inv in Hd as (_ & _ & Hrel & _).
  simpl. now rewrite Hrel, IH.
Qed.

(** X7.  The order in which the directory walk yields the paths does not
    matter: two listings with the same paths give the same result, error
    or records.  The records are those of the regular files that are not
    symbolic links, each once per occurrence in the listing, in increasing
    order of their paths compared component by component. *)
Theorem collect_files_order fs listing listing' max_bytes
  (Hp : Permutation listing listing') :
  collect_files fs listing max_bytes = collect_files fs listing' max_bytes
  /\ (forall infos, collect_files fs listing max_bytes = Ok infos ->
      map rel infos = filter (regular fs) (sort path_leb listing)
      /\ Permutation (map rel infos) (filter (regular fs) listing)
      /\ StronglySorted path_le (map rel infos)).
Proof.
  split.
  - unfold collect_files. f_equal.
    apply (sorted_unique path_le path_leb_antisym);
      try apply sort_paths_sorted.
    now rewrite !sort_perm.
  - intros infos H. apply collect_loop_rels in H. rewrite H.
    split; [reflexivity|]. split.
    + clear. pose proof (sort_perm path_leb listing) as Hs.
      induction Hs; simpl; auto.
      * destruct (regular fs x); auto.
      * destruct (regular fs x), (regular fs y); auto. apply perm_swap.
      * etransitivity; eauto.
    + apply sorted_filter, sort_paths_sorted.
Qed.

Lemma collect_files_order_witness :
  collect_files sample_fs sample_listing 100
  = collect_files sample_fs (rev sample_listing) 100.
Proof.
  apply (collect_files_order sample_fs sample_listing (rev sample_listing) 100).
  apply Permutation_rev.
Defined.

(** ** What the binary heuristic makes of text *)




Lemma cont_below_192 (b : N) : Utf8.cont b = true -> (b <= 191)%N.
Proof.
  unfold Utf8.cont, Utf8.between. intros H.
  apply andb_prop in H as (_ & H). now apply N.leb_le in H.
Qed.

(** A byte string that decodes does not end in a lead byte. *)
Lemma well_formed_last (n : nat) :
  forall bs, (List.length bs <= n)%nat -> Utf8.well_formed bs = true ->
             bs <> [] -> (last bs 0 <= 191)%N.
Proof.
  induction n as [|n IH]; intros bs Hn Hwf Hne.
  - destruct bs; [contradiction|simpl in Hn; lia].
  - destruct bs as [|b0 t0]; [contradiction|].
    simpl in Hn. simpl in Hwf.
    destruct (b0 <=? 127)%N eqn:E0.
    { destruct t0 as [|b1 t1].
      - apply N.leb_le in E0. simpl. lia.
      - apply (IH (b1 :: t1)); [lia|exact Hwf|discriminate]. }
    destruct t0 as [|b1 t1]; [discriminate|].
    destruct (Utf8.between 194 223 b0).
    { apply andb_prop in Hwf as (Hc & Hwf). destruct t1 as [|b2 t2].
      - now apply cont_below_192.
      - apply (IH (b2 :: t2)); [simpl in *; lia|exact Hwf|discriminate]. }
    destruct t1 as [|b2 t2]; [discriminate|].
    destruct (Utf8.between 224 239 b0).
    { apply andb_prop in Hwf as (Hc & Hwf). apply andb_prop in Hc as (_ & Hc).
      destruct t2 as [|b3 t3].
      - now apply cont_below_192.
      - apply (IH (b3 :: t3)); [simpl in *; lia|exact Hwf|discriminate]. }
    destruct t2 as [|b3 t3]; [discriminate|].
    apply andb_prop in Hwf as (Hc & Hwf). apply andb_prop in Hc as (_ & Hc).
    destruct t3 as [|b4 t4].
    + now apply cont_below_192.
    + apply (IH (b4 :: t4)); [simpl in *; lia|exact Hwf|discriminate].
Qed.

(** X14.  Only the first 8192 bytes are looked at, and they must decode on
    their own: a file whose 8192nd byte is the lead byte of a multi-byte
    UTF-8 character, so that the prefix stops inside the character, is
    reported binary whatever its extension, even when the file as a whole
    is well-formed UTF-8 text. *)
Theorem cut_character_is_binary fs p pre b rest
  (Hread : read_bytes fs p = Ok (pre ++ b :: rest)%list)
  (Hlen : S (List.length pre) = CHUNK)
  (Hlead : (192 <= Byte.to_N b)%N) :
  looks_binary fs p = true.
Proof.
  unfold looks_binary. rewrite Hread.
  destruct (str_mem _ _); [reflexivity|].
  assert (Hchunk : firstn CHUNK (pre ++ b :: rest) = (pre ++ [b])%list).
  { rewrite <- Hlen. replace (S (List.length pre))
      with (List.length pre + 1)%nat by lia.
    now rewrite firstn_app_2. }
  rewrite Hchunk. destruct (has_nul _); [reflexivity|].
  destruct (Utf8.decodes (pre ++ [b])) eqn:E; [|reflexivity].
  exfalso. unfold Utf8.decodes in E. rewrite map_app in E. simpl in E.
  apply (well_formed_last _ _ (Nat.le_refl _)) in E.
  - rewrite last_last in E. lia.
  - destruct (map Byte.to_N pre); discriminate.
Qed.

Lemma cut_character_is_binary_witness :
  Utf8.decodes cut_text = true /\ looks_binary cut_fs "notes.txt" = true.
Proof.
  split; [vm_compute; reflexivity|].
  apply (cut_character_is_binary cut_fs "notes.txt"
           (repeat x61 (Z.to_nat 8191)) xc3 [xa9]).
  - reflexivity.
  - vm_compute. reflexivity.
  - vm_compute. discriminate.
Defined.

(** ** When the fallback tree can be drawn *)














(** ** Links of the table of contents and their targets *)

Lemma toc_item_link (i : FileInfo) :
  exists pre post,
    toc_item i
    = pre ++ ("<a href=" ++ dquote ++ "#" ++ section_id i ++ dquote ++ ">")
      ++ post.
Proof.
  exists "<li>". eexists. unfold toc_item, section_id.
  rewrite ?str_app_assoc. reflexivity.
Qed.

Lemma section_html_target (i : FileInfo) (body : string) :
  exists pre post,
    section_html i body
    = pre ++ ("id=" ++ dquote ++ section_id i ++ dquote ++ ">") ++ post.
Proof.
  exists (nl ++ "<section class=" ++ dquote ++ "file-section" ++ dquote ++ " ").
  eexists. unfold section_html.
  rewrite ?str_app_assoc. reflexivity.
Qed.

Lemma concat_member_piece (sep needle x : string) (l : list string) :
  In x l -> (exists pre post, x = pre ++ needle ++ post) ->
  str_in needle (String.concat sep l) = true.
Proof.
  intros Hin (pre & post & ->).
  destruct (concat_member sep _ l Hin) as (pre' & post' & ->).
  find_piece.
Qed.

(** X10.  Every link of the table of contents has its target: for each
    included file the table holds a link to [#file-<slug>] and the page
    holds a section whose [id] is [file-<slug>], and the table and the
    sections have one item each per included file. *)
Theorem toc_links_have_targets body fs tree_cmd repo_dir infos art i
  (H : build_html body fs tree_cmd repo_dir infos = Ok art)
  (Hin : In i infos) (Hinc : included i = true) :
  str_in ("<a href=" ++ dquote ++ "#" ++ section_id i ++ dquote ++ ">")
         (toc_html art) = true
  /\ str_in ("id=" ++ dquote ++ section_id i ++ dquote ++ ">")
            (sections_html art) = true
  /\ toc_html art
     = String.concat "" (map toc_item (filter included infos))
  /\ sections_html art
     = String.concat ""
         (map (fun j => section_html j (body j)) (filter included infos))
  /\ stat_rendered art = List.length (filter included infos).
Proof.
  apply build_html_inv in H as (tree_text & _ & ->). cbn.
  assert (Hr : In i (filter included infos)) by (apply filter_In; auto).
  split; [|split; [|repeat split]].
  - apply (concat_member_piece _ _ (toc_item i)).
    + now apply in_map.
    + apply toc_item_link.
  - apply (concat_member_piece _ _ (section_html i (body i))).
    + apply (in_map (fun j => section_html j (body j))), Hr.
    + apply section_html_target.
Qed.

Lemma toc_links_have_targets_witness :
  exists art,
    build_html (fun _ => "") sample_fs (Ok "tree") sample_tree sample_infos
    = Ok art
    /\ str_in ("<a href=" ++ dquote ++ "#file-src-main-txt" ++ dquote ++ ">")
              (toc_html art) = true
    /\ str_in ("id=" ++ dquote ++ "file-src-main-txt" ++ dquote ++ ">")
              (sections_html art) = true.
Proof.
  eexists. split; [reflexivity|].
  destruct (toc_links_have_targets (fun _ => "") sample_fs (Ok "tree")
              sample_tree sample_infos _ (mk_info "src/main.txt" 5 true "ok")
              eq_refl) as (Ht & Hs & _).
  - simpl. auto 12.
  - reflexivity.
  - split; [exact Ht|exact Hs].
Defined.

(** ** The summary on the console and the stats of the page *)

Lemma rendered_count_from (infos : list FileInfo) (a : Z) :
  fold_left (fun acc i => if included i then acc + 1 else acc) infos a
  = a + Z.of_nat (List.length (filter included infos)).
Proof.
  revert a. induction infos as [|i l IH]; intros a; simpl; [lia|].
  rewrite IH. destruct (included i); simpl List.length; lia.
Qed.

(** X12.  The summary [main] prints and the stats block of the page count
    differently: both agree on the files rendered, but [main] counts as
    skipped every file that is not rendered, the ignored ones included,
    whereas the page leaves these out.  The two numbers differ by the
    number of ignored files. *)
Theorem summary_counts body fs0 fs tree_cmd repo_dir listing max_bytes
  infos art
  (Hc : collect_files fs0 listing max_bytes = Ok infos)
  (Hb : build_html body fs tree_cmd repo_dir infos = Ok art) :
  rendered_count infos = Z.of_nat (stat_rendered art)
  /\ skipped_count infos
     = Z.of_nat (stat_skipped art) + Z.of_nat (count_reason "ignored" infos)
  /\ rendered_count infos + skipped_count infos = Z.of_nat (total_files art).
Proof.
  pose proof (collected_wf _ _ _ _ Hc) as Hwf.
  pose proof (count_partition infos Hwf) as Hsum.
  pose proof (included_ok infos Hwf) as Hok.
  apply build_html_inv in Hb as (tree_text & _ & ->). cbn.
  unfold skipped_count, rendered_count. rewrite rendered_count_from.
  unfold count_reason in *. rewrite Hok in *. lia.
Qed.

Lemma summary_counts_witness :
  rendered_count sample_infos = 3 /\ skipped_count sample_infos = 6
  /\ exists art,
       build_html (fun _ => "") sample_fs (Ok "tree") sample_tree sample_infos
       = Ok art
       /\ skipped_count sample_infos
          = Z.of_nat (stat_skipped art)
            + Z.of_nat (count_reason "ignored" sample_infos).
Proof.
  split; [reflexivity|]. split; [reflexivity|].
  eexists. split; [reflexivity|].
  apply (summary_counts (fun _ => "") sample_fs sample_fs (Ok "tree")
           sample_tree sample_listing 100 sample_infos _ sample_collect
           eq_refl).
Defined.

(** ** The export and the records that are left out *)

Lemma filter_idem {A : Type} (f : A -> bool) (l : list A) :
  filter f (filter f l) = filter f l.
Proof.
  induction l as [|x l IH]; simpl; [reflexivity|].
  destruct (f x) eqn:E; simpl; rewrite ?E, IH; reflexivity.
Qed.

Lemma filter_none {A : Type} (f : A -> bool) (l : list A) :
  forallb (fun x => negb (f x)) l = true -> filter f l = [].
Proof.
  induction l as [|x l IH]; simpl; [reflexivity|].
  destruct (f x); simpl; [discriminate|exact IH].
Qed.

(** X13.  Records that are not included leave no trace in the export: it
    is the export of the included records alone, and when nothing is
    included it is the empty container, two lines without any entry. *)
Theorem export_of_included fs (infos : list FileInfo) :
  generate_cxml_text fs infos = generate_cxml_text fs (filter included infos)
  /\ (forallb (fun i => negb (included i)) infos = true ->
      generate_cxml_text fs infos = "<documents>" ++ nl ++ "</documents>").
Proof.
  unfold generate_cxml_text, cxml_lines. split.
  - now rewrite filter_idem.
  - intros H. now rewrite (filter_none _ _ H).
Qed.

Lemma export_of_included_witness :
  generate_cxml_text sample_fs
    [mk_info "logo.png" 5 false "binary"; mk_info ".git/config" 500 false "ignored"]
  = "<documents>" ++ nl ++ "</documents>".
Proof.
  apply (proj2 (export_of_included sample_fs _)). reflexivity.
Defined.

(** ** Names derived from the repository URL *)

Lemma split_parts_no_sep (sep : ascii) (s : string) :
  Forall (fun w => all_chars (fun c => negb (Ascii.eqb c sep)) w = true)
         (split sep s).
Proof.
  induction s as [|c s IH]; [repeat constructor|].
  rewrite split_cons. pose proof (split_nonempty sep s) as Hne.
  destruct (split sep s) as [|h t]; [contradiction|].
  destruct (Ascii.eqb c sep) eqn:E.
  - constructor; [reflexivity|exact IH].
  - inversion IH as [|? ? Hh Ht]; subst. constructor; [|exact Ht].
    cbn [hd all_chars]. now rewrite E, Hh.
Qed.

Lemma last_Forall {A : Type} (P : A -> Prop) (l : list A) (d : A) :
  Forall P l -> l <> [] -> P (last l d).
Proof.
  induction 1 as [|x l Hx Hl IH]; [contradiction|].
  intros _. destruct l as [|y l]; [exact Hx|].
  apply IH. discriminate.
Qed.

Lemma all_chars_substring (P : ascii -> bool) (n : nat) (s : string) :
  all_chars P s = true -> all_chars P (substring 0 n s) = true.
Proof.
  revert s. induction n as [|n IH]; intros [|c s]; simpl; auto.
  intros H. apply andb_prop in H as (Hc & Hs). now rewrite Hc, IH.
Qed.

Lemma endswith_refl (suf : string) : endswith suf suf = true.
Proof. destruct suf; simpl; now rewrite ?String.eqb_refl, ?Ascii.eqb_refl. Qed.

Lemma endswith_app (suf a : string) : endswith suf (a ++ suf) = true.
Proof.
  induction a as [|c a IH]; [apply endswith_refl|].
  cbn [append endswith]. rewrite IH.
  now destruct (String.eqb (String c (a ++ suf)) suf).
Qed.

Lemma rstrip_app_sep (c : ascii) (s : string) :
  rstrip c (s ++ String c EmptyString) = rstrip c s.
Proof.
  induction s as [|a s IH]; simpl.
  - now rewrite Ascii.eqb_refl.
  - now rewrite IH.
Qed.

Lemma split_single (sep : ascii) (name : string) :
  all_chars (fun c => negb (Ascii.eqb c sep)) name = true ->
  split sep name = [name].
Proof.
  induction name as [|c s IH]; [reflexivity|].
  cbn [all_chars]. intros H. apply andb_prop in H as (Hc & Hs).
  apply negb_true_iff in Hc. rewrite split_cons, Hc, (IH Hs). reflexivity.
Qed.

(** The components of [base/name] are those of [base], then [name]. *)
Lemma split_app_last (sep : ascii) (base name : string) :
  all_chars (fun c => negb (Ascii.eqb c sep)) name = true ->
  split sep (base ++ String sep name) = (split sep base ++ [name])%list.
Proof.
  intros Hn. induction base as [|c base IH].
  - cbn [append]. rewrite split_cons, Ascii.eqb_refl, (split_single _ _ Hn).
    reflexivity.
  - cbn [append]. rewrite !split_cons, IH.
    pose proof (split_nonempty sep base) as Hne.
    destruct (split sep base) as [|h t]; [contradiction|].
    destruct (Ascii.eqb c sep); reflexivity.
Qed.

Lemma rstrip_no_sep (c : ascii) (name : string) :
  all_chars (fun a => negb (Ascii.eqb a c)) name = true -> rstrip c name = name.
Proof.
  induction name as [|a s IH]; [reflexivity|].
  cbn [all_chars]. intros H. apply andb_prop in H as (Ha & Hs).
  apply negb_true_iff in Ha. cbn [rstrip]. rewrite (IH Hs), Ha.
  now destruct s.
Qed.

Lemma rstrip_keep (c : ascii) (a b : string) :
  rstrip c b = b -> b <> EmptyString -> rstrip c (a ++ b) = a ++ b.
Proof.
  intros Hb Hne. induction a as [|x a IH]; [exact Hb|].
  cbn [append rstrip]. rewrite IH.
  destruct (a ++ b) eqn:E; [|reflexivity].
  destruct a; [simpl in E; contradiction|discriminate].
Qed.

Lemma rstrip_last_part (base name : string) :
  all_chars (fun a => negb (Ascii.eqb a "/")) name = true ->
  name <> EmptyString ->
  rstrip "/" (base ++ String "/" name) = base ++ String "/" name.
Proof.
  intros Hn Hne. apply rstrip_keep; [|discriminate].
  cbn [rstrip]. rewrite (rstrip_no_sep _ _ Hn).
  destruct name; [contradiction|reflexivity].
Qed.

Lemma str_length_app (a b : string) :
  String.length (a ++ b) = (String.length a + String.length b)%nat.
Proof. induction a as [|c a IH]; simpl; [reflexivity|now rewrite IH]. Qed.

Lemma substring_prefix (a b : string) :
  substring 0 (String.length a) (a ++ b) = a.
Proof.
  induction a as [|c a IH]; simpl.
  - now destruct b.
  - now rewrite IH.
Qed.

Lemma derive_last_part (base name : string) :
  all_chars (fun a => negb (Ascii.eqb a "/")) name = true ->
  name <> EmptyString ->
  derive_temp_output_path (base ++ "/" ++ name)
  = (if endswith ".git" name
     then substring 0 (String.length name - 4) name else name) ++ ".html".
Proof.
  intros Hn Hne. unfold derive_temp_output_path.
  change (base ++ "/" ++ name) with (base ++ String "/" name).
  rewrite (rstrip_last_part _ _ Hn Hne), (split_app_last _ _ _ Hn).
  rewrite last_last, length_app.
  pose proof (split_nonempty "/" base).
  destruct (split "/" base) as [|h t]; [contradiction|].
  replace (2 <=? List.length (h :: t) + List.length [name])%nat with true
    by (symmetry; apply Nat.leb_le; simpl; lia).
  reflexivity.
Qed.

(** X11.  [derive_temp_output_path] always yields a name that ends in
    [.html] and holds no slash, so that the file lies directly in the
    temporary directory.  Slashes at the end of the URL are ignored.  For
    a URL [base/name] the file is [name.html], and for [base/name.git] it
    is [name.html] as well; a URL without a slash gives [repo.html]. *)
Theorem derive_temp_output_path_spec (repo_url base name : string) :
  all_chars (fun c => negb (Ascii.eqb c "/")) (derive_temp_output_path repo_url)
  = true
  /\ endswith ".html" (derive_temp_output_path repo_url) = true
  /\ derive_temp_output_path (repo_url ++ "/")
     = derive_temp_output_path repo_url
  /\ (all_chars (fun c => negb (Ascii.eqb c "/")) repo_url = true ->
      derive_temp_output_path repo_url = "repo.html")
  /\ (all_chars (fun c => negb (Ascii.eqb c "/")) name = true ->
      derive_temp_output_path (base ++ "/" ++ name ++ ".git") = name ++ ".html"
      /\ (name <> EmptyString -> endswith ".git" name = false ->
          derive_temp_output_path (base ++ "/" ++ name) = name ++ ".html")).
Proof.
  split; [|split; [|split; [|split]]].
  - unfold derive_temp_output_path.
    pose proof (split_parts_no_sep "/" (rstrip "/" repo_url)) as Hall.
    pose proof (split_nonempty "/" (rstrip "/" repo_url)) as Hne.
    destruct (2 <=? _)%nat; [|reflexivity].
    rewrite all_chars_app, andb_true_r.
    pose proof (last_Forall _ _ EmptyString Hall Hne) as Hlast.
    cbv beta in Hlast.
    destruct (endswith ".git" _); [|exact Hlast].
    now apply all_chars_substring.
  - unfold derive_temp_output_path.
    destruct (2 <=? _)%nat; [apply endswith_app|reflexivity].
  - unfold derive_temp_output_path.
    change (repo_url ++ "/") with (repo_url ++ String "/" EmptyString).
    now rewrite rstrip_app_sep.
  - intros Hn. unfold derive_temp_output_path.
    now rewrite (rstrip_no_sep _ _ Hn), (split_single _ _ Hn).
  - intros Hn. split.
    + rewrite derive_last_part.
      * rewrite endswith_app, str_length_app. cbn [String.length].
        replace (String.length name + 4 - 4)%nat with (String.length name)
          by lia.
        now rewrite substring_prefix.
      * now rewrite all_chars_app, Hn.
      * destruct name; discriminate.
    + intros Hne Hg. rewrite (derive_last_part _ _ Hn Hne). now rewrite Hg.
Qed.

Lemma derive_temp_output_path_spec_witness :
  derive_temp_output_path "solo" = "repo.html"
  /\ derive_temp_output_path ("https://github.com/ajk" ++ "/" ++ "flat" ++ ".git")
     = "flat" ++ ".html"
  /\ derive_temp_output_path ("https://github.com/ajk" ++ "/" ++ "flat")
     = "flat" ++ ".html".
Proof.
  destruct (derive_temp_output_path_spec "solo" "https://github.com/ajk" "flat")
    as (_ & _ & _ & Hsolo & Hname).
  split; [apply Hsolo; reflexivity|].
  destruct (Hname eq_refl) as (Hgit & Hplain).
  split; [exact Hgit|]. apply Hplain; [discriminate|reflexivity].
Defined.

Lemma all_chars_deleted (P : ascii -> bool) (old s : string) (k : nat) :
  all_chars P s = true -> all_chars P (replace_from k old "" s) = true.
Proof.
  revert k. induction s as [|c s IH]; intros k; [reflexivity|].
  cbn [all_chars]. intros H. apply andb_prop in H as (Hc & Hs).
  cbn [replace_from]. destruct k as [|k]; [|now apply IH].
  destruct (prefix old (String c s)).
  - cbn [append]. now apply IH.
  - cbn [all_chars]. now rewrite Hc, IH.
Qed.

Lemma replace_absent (old new s : string) :
  str_in old s = false -> replace old new s = s.
Proof.
  unfold replace. induction s as [|c s IH]; [reflexivity|].
  rewrite str_in_cons. intros H. apply orb_false_elim in H as (Hp & Hs).
  cbn [replace_from]. now rewrite Hp, IH.
Qed.

(** X15.  The name in the title of the page is the text after the last
    slash of the URL with every [.git] taken out.  It never holds a slash;
    it is [Repository] for an empty URL; it is empty for a URL that ends
    in a slash, where the output file is still named after the last real
    component; and for [base/name] with no [.git] in [name] it is
    [name]. *)
Theorem repo_name_spec (repo_url base name : string) :
  all_chars (fun c => negb (Ascii.eqb c "/")) (repo_name repo_url) = true
  /\ repo_name "" = "Repository"
  /\ repo_name (repo_url ++ "/") = ""
  /\ (all_chars (fun c => negb (Ascii.eqb c "/")) name = true ->
      str_in ".git" name = false ->
      repo_name (base ++ "/" ++ name) = name).
Proof.
  split; [|split; [reflexivity|split]].
  - unfold repo_name. destruct repo_url as [|c s]; [reflexivity|].
    apply all_chars_deleted.
    apply (last_Forall _ _ EmptyString (split_parts_no_sep "/" (String c s))).
    apply split_nonempty.
  - unfold repo_name.
    assert (Hl : last (split "/" (repo_url ++ "/")) "" = "").
    { change (repo_url ++ "/") with (repo_url ++ String "/" "").
      rewrite split_app_last by reflexivity. apply last_last. }
    rewrite Hl. destruct repo_url; reflexivity.
  - intros Hn Hg. unfold repo_name.
    change (base ++ "/" ++ name) with (base ++ String "/" name).
    rewrite (split_app_last _ _ _ Hn), last_last, (replace_absent _ _ _ Hg).
    destruct base; reflexivity.
Qed.

Lemma repo_name_spec_witness :
  repo_name ("https://github.com/ajk" ++ "/" ++ "Repo_Flattener")
  = "Repo_Flattener"
  /\ repo_name ("https://github.com/ajk/Repo_Flattener" ++ "/") = ""
  /\ derive_temp_output_path ("https://github.com/ajk/Repo_Flattener" ++ "/")
     = "Repo_Flattener.html".
Proof.
  destruct (repo_name_spec "https://github.com/ajk/Repo_Flattener"
              "https://github.com/ajk" "Repo_Flattener")
    as (_ & _ & Hslash & Hname).
  split; [apply Hname; reflexivity|]. split; [exact Hslash|reflexivity].
Defined.

(** ** Icons *)








(** ** When the assembly fails *)


